(** * Mongo_GUI: the tabular transform and query engine of [gui_main.py]

    A shallow embedding of the data-handling functions of [src/gui_main.py]
    ([load_data], [save_data], [add_column], [merge_columns],
    [remove_columns], [conditional_update], [rename_column],
    [process_uploaded_file], [serialize_complex_data], [serialize_dataframe],
    [execute_sql_query], the buttons of the main page and the sidebar
    handlers of [main]) together with the parts of pandas, json and pymongo
    they call.

    Modelling boundaries, stated once:
    - Python [str] is a Rocq [string]; each character is the code point of
      the same number (0..255).
    - The only float of the model is NaN, pandas' marker for a missing
      cell; finite floats and the infinities are outside the model.  A
      table the transforms work on is a list of columns of dynamically
      typed cells, as object columns are.  Where pandas builds a frame
      from Python objects ([pd.DataFrame(docs)], [applymap]) it infers a
      dtype for each column; the model gives the inferred column, and one
      that is made float64 or datetime64 with NaT is given by the cells it
      was converted from ([column]).
    - The store keeps a document as it is sent.  pymongo refuses an int
      beyond 64 bits and some field names, BSON cuts a datetime to whole
      milliseconds, and the server refuses a second document with the same
      [_id]: theorems about what a save leaves in the store assume values
      BSON holds exactly ([bson_exact], [plain_key]) and a table without an
      [_id] column, saved under names pymongo takes ([plain_name]) on a
      server that answers; size limits of the server are not modelled.
    - A [datetime] is naive (no tzinfo), as pymongo returns it by default.
    - [data[col]] on a frame whose labels repeat returns a sub-frame in
      pandas; the model returns the first such column, and every theorem
      that goes through [getitem] assumes unique labels. *)

From Stdlib Require Import ZArith NArith String Ascii List Lia Decimal
  DecimalString DecimalN DecimalPos DecimalFacts.
From stdpp Require Import base option list strings gmap.
Import ListNotations.
Open Scope string_scope.
Open Scope list_scope.
Open Scope Z_scope.
Set Warnings "-register-all".

(** ** Python values *)

(** [datetime.datetime], naive. *)
Record datetime := mkDatetime {
  year : N; month : N; day : N;
  hour : N; minute : N; second : N; microsecond : N
}.

(** Values that pandas broadcasts as one cell: what [st.text_input] returns
    ([SStr]) and what a document field that is neither a list nor a dict
    holds. *)
Inductive scalar :=
| SNone
| SNaN
| SBool (b : bool)
| SInt (z : Z)
| SStr (s : string)
| SDatetime (d : datetime)
| SObjectId (hex : string).

(** A document field or a table cell. A dict keeps its insertion order. *)
Inductive value :=
| Atom (a : scalar)
| VList (items : list value)
| VDict (fields : list (string * value)).

Definition document := list (string * value).

Definition VStr (s : string) : value := Atom (SStr s).
Definition NaN : value := Atom SNaN.

(** ** Characters and decimal text *)

Definition chr (n : N) : ascii := ascii_of_N n.
Definition ord (c : ascii) : N := N_of_ascii c.

Definition dquote : ascii := "034"%char.
Definition squote : ascii := "039"%char.
Definition backslash : ascii := "092"%char.

Definition str1 (c : ascii) : string := String c "".

(** [str(n)] for a natural number. *)
Definition str_N (n : N) : string := NilEmpty.string_of_uint (N.to_uint n).

(** [str(z)] for a Python [int]. *)
Definition str_Z (z : Z) : string :=
  match z with
  | Zneg p => String "-" (str_N (Npos p))
  | _ => str_N (Z.to_N z)
  end.

Fixpoint replicate_char (n : nat) (c : ascii) : string :=
  match n with
  | O => ""
  | S k => String c (replicate_char k c)
  end.

(** ["%0<w>d" % n] *)
Definition zfill (w : nat) (n : N) : string :=
  let s := str_N n in
  replicate_char (w - String.length s) "0" +:+ s.

Definition hex_digit (n : N) : ascii :=
  if (n <? 10)%N then chr (48 + n) else chr (87 + n).

(** ["{0:02x}".format(n)] for n < 256 *)
Definition hex2 (n : N) : string :=
  String (hex_digit (n / 16)) (str1 (hex_digit (n mod 16))).

Fixpoint join (sep : string) (parts : list string) : string :=
  match parts with
  | [] => ""
  | [p] => p
  | p :: rest => p +:+ sep +:+ join sep rest
  end.

Fixpoint contains_char (c : ascii) (s : string) : bool :=
  match s with
  | EmptyString => false
  | String d rest => if Ascii.eqb c d then true else contains_char c rest
  end.

(** ** [datetime.isoformat], [str] and [repr] *)

(** [datetime.isoformat(sep)] with timespec 'auto': the microseconds are
    printed only when they are not zero. *)
Definition isoformat_sep (sep : ascii) (d : datetime) : string :=
  zfill 4 (year d) +:+ "-" +:+ zfill 2 (month d) +:+ "-" +:+ zfill 2 (day d)
  +:+ str1 sep
  +:+ zfill 2 (hour d) +:+ ":" +:+ zfill 2 (minute d) +:+ ":" +:+ zfill 2 (second d)
  +:+ (if (microsecond d =? 0)%N then "" else "." +:+ zfill 6 (microsecond d)).

Definition isoformat (d : datetime) : string := isoformat_sep "T" d.

(** [repr(datetime)]: trailing zero second and microsecond are left out. *)
Definition repr_datetime (d : datetime) : string :=
  let base := [year d; month d; day d; hour d; minute d] in
  let tail :=
    if (microsecond d =? 0)%N
    then (if (second d =? 0)%N then [] else [second d])
    else [second d; microsecond d] in
  "datetime.datetime(" +:+ join ", " (map str_N (base ++ tail)) +:+ ")".

(** Whether [repr] prints a character of the Latin-1 range as it is. *)
Definition printable (n : N) : bool :=
  if (n <? 32)%N then false
  else if (n <? 127)%N then true
  else if (n <? 161)%N then false
  else negb (n =? 173)%N.

Definition repr_char (quote : ascii) (c : ascii) : string :=
  if Ascii.eqb c quote || Ascii.eqb c backslash then String backslash (str1 c)
  else if Ascii.eqb c (chr 9) then String backslash "t"
  else if Ascii.eqb c (chr 10) then String backslash "n"
  else if Ascii.eqb c (chr 13) then String backslash "r"
  else if printable (ord c) then str1 c
  else String backslash (String "x" (hex2 (ord c))).

Fixpoint repr_chars (quote : ascii) (s : string) : string :=
  match s with
  | EmptyString => ""
  | String c rest => repr_char quote c +:+ repr_chars quote rest
  end.

(** [repr(s)] for a [str]: single quotes unless the text has a single quote
    and no double quote. *)
Definition repr_str (s : string) : string :=
  let quote :=
    if contains_char squote s && negb (contains_char dquote s)
    then dquote else squote in
  str1 quote +:+ repr_chars quote s +:+ str1 quote.

Definition str_scalar (a : scalar) : string :=
  match a with
  | SNone => "None"
  | SNaN => "nan"
  | SBool true => "True"
  | SBool false => "False"
  | SInt z => str_Z z
  | SStr s => s
  | SDatetime d => isoformat_sep " " d
  | SObjectId h => h
  end.

Definition repr_scalar (a : scalar) : string :=
  match a with
  | SStr s => repr_str s
  | SDatetime d => repr_datetime d
  | SObjectId h => "ObjectId('" +:+ h +:+ "')"
  | _ => str_scalar a
  end.

Fixpoint py_repr (v : value) : string :=
  match v with
  | Atom a => repr_scalar a
  | VList items => "[" +:+ join ", " (map py_repr items) +:+ "]"
  | VDict fields =>
      "{" +:+ join ", " (map (fun kv => repr_str (fst kv) +:+ ": " +:+ py_repr (snd kv)) fields)
      +:+ "}"
  end.

(** [str(v)]: a container prints the [repr] of what it holds. *)
Definition py_str (v : value) : string :=
  match v with
  | Atom a => str_scalar a
  | _ => py_repr v
  end.

(** Python [==] between two scalars ([True == 1] holds; NaN equals
    nothing). *)
Definition py_eq_scalar (a b : scalar) : bool :=
  match a, b with
  | SNone, SNone => true
  | SBool x, SBool y => Bool.eqb x y
  | SBool x, SInt z | SInt z, SBool x => Z.b2z x =? z
  | SInt x, SInt y => x =? y
  | SStr x, SStr y => String.eqb x y
  | SDatetime x, SDatetime y =>
      (year x =? year y)%N && (month x =? month y)%N && (day x =? day y)%N
      && (hour x =? hour y)%N && (minute x =? minute y)%N
      && (second x =? second y)%N && (microsecond x =? microsecond y)%N
  | SObjectId x, SObjectId y => String.eqb x y
  | _, _ => false
  end.

(** ** Exceptions and the frame a function body holds *)

(** What a KeyError carries: the label [data[c]] did not find, or the labels
    [drop] did not find in the axis. *)
Inductive key_error :=
| Label (c : string)
| NotInAxis (missing : list string).

Inductive exn :=
| KeyError (k : key_error)
| TypeError (msg : string)
| PandaSQLException (msg : string).

Inductive result (A : Type) :=
| Ok (a : A)
| Raise (e : exn).
Arguments Ok {A} a.
Arguments Raise {A} e.

(** [str(e)] as an f-string prints it; a KeyError prints the [repr] of
    what it carries. *)
Definition str_exn (e : exn) : string :=
  match e with
  | KeyError (Label c) => repr_str c
  | KeyError (NotInAxis missing) =>
      repr_str (py_repr (VList (map VStr missing)) +:+ " not found in axis")
  | TypeError msg => msg
  | PandaSQLException msg => msg
  end.

(** A pandas DataFrame with a RangeIndex of [nrows] rows: the columns in
    their order, each a label and its cells.  pandas allows a label to occur
    more than once. *)
Record DataFrame := mkDF {
  nrows : nat;
  cols : list (string * list value)
}.

Definition labels (df : DataFrame) : list string := map fst (cols df).

(** Every column has one cell per row. *)
Definition wf (df : DataFrame) : Prop :=
  Forall (fun c => length (snd c) = nrows df) (cols df).

Definition unique_labels (df : DataFrame) : Prop := NoDup (labels df).

(** The body of a function that received the frame [data] by reference:
    it may read and mutate that object, and ends in a value or an
    exception.  The first component is the object after the call. *)
Definition Py (A : Type) : Type := DataFrame -> DataFrame * result A.

Definition get_data : Py DataFrame := fun data => (data, Ok data).
Definition mutate (f : DataFrame -> DataFrame) : Py unit :=
  fun data => (f data, Ok tt).
Definition lift {A} (r : result A) : Py A := fun data => (data, r).

#[export] Instance Py_ret : MRet Py := fun A a data => (data, Ok a).
#[export] Instance Py_bind : MBind Py := fun A B k m data =>
  match m data with
  | (data', Ok a) => k a data'
  | (data', Raise e) => (data', Raise e)
  end.

(** ** The pandas operations the source calls *)

Fixpoint find_col (c : string) (cs : list (string * list value)) : option (list value) :=
  match cs with
  | [] => None
  | (l, s) :: rest => if String.eqb l c then Some s else find_col c rest
  end.

Definition has_label (c : string) (ls : list string) : bool :=
  existsb (String.eqb c) ls.

(** [data[c]] *)
Definition getitem (c : string) : Py (list value) :=
  fun data =>
    match find_col c (cols data) with
    | Some s => (data, Ok s)
    | None => (data, Raise (KeyError (Label c)))
    end.

(** [data[c] = series]: an existing label keeps its place (every column of
    that label is set), a new one is appended. *)
Definition set_col (c : string) (s : list value) (cs : list (string * list value))
  : list (string * list value) :=
  if has_label c (map fst cs)
  then map (fun col => if String.eqb (fst col) c then (fst col, s) else col) cs
  else cs ++ [(c, s)].

Definition setitem (c : string) (s : list value) : Py unit :=
  mutate (fun data => mkDF (nrows data) (set_col c s (cols data))).

(** [data[c] = a] for a scalar: broadcast over the index. *)
Definition setitem_scalar (c : string) (a : scalar) : Py unit :=
  fun data => setitem c (repeat (Atom a) (nrows data)) data.

(** [series.astype(str)] *)
Definition astype_str (s : list value) : list string := map py_str s.

(** [+] of two series of [str], row by row. *)
Fixpoint series_add (a b : list string) : list string :=
  match a, b with
  | x :: a', y :: b' => (x +:+ y) :: series_add a' b'
  | _, _ => []
  end.

(** [data.drop(columns=names)] (errors='raise'): a new frame. *)
Definition drop_columns (names : list string) (data : DataFrame) : result DataFrame :=
  match filter (fun n => negb (has_label n (labels data))) names with
  | [] => Ok (mkDF (nrows data)
               (filter (fun col => negb (has_label (fst col) names)) (cols data)))
  | missing => Raise (KeyError (NotInAxis missing))
  end.

(** [data.rename(columns={old: new})] (errors='ignore'): a new frame. *)
Definition rename_columns (old new : string) (data : DataFrame) : DataFrame :=
  mkDF (nrows data)
    (map (fun col => if String.eqb (fst col) old then (new, snd col) else col) (cols data)).

(** One cell of [series == cond] on an object column: a null cell or a null
    operand compares unequal, a container never equals a scalar. *)
Definition elem_eq (cell : value) (cond : scalar) : bool :=
  match cell, cond with
  | Atom SNone, _ | Atom SNaN, _ => false
  | _, SNone | _, SNaN => false
  | Atom a, _ => py_eq_scalar a cond
  | _, _ => false
  end.

Definition series_eq (s : list value) (cond : scalar) : list bool :=
  map (fun cell => elem_eq cell cond) s.

Fixpoint where_set (mask : list bool) (a : scalar) (s : list value) : list value :=
  match mask, s with
  | m :: mask', v :: s' => (if m then Atom a else v) :: where_set mask' a s'
  | _, _ => s
  end.

(** [data.loc[mask, c] = a]: the masked cells of column [c]; a label that
    is not there yet becomes a new column, NaN outside the mask. *)
Definition loc_setitem (mask : list bool) (c : string) (a : scalar) : Py unit :=
  mutate (fun data =>
    if has_label c (labels data)
    then mkDF (nrows data)
           (map (fun col => if String.eqb (fst col) c
                            then (fst col, where_set mask a (snd col)) else col)
                (cols data))
    else mkDF (nrows data)
           (cols data ++ [(c, map (fun m : bool => if m then Atom a else NaN) mask)])).

(** ** The dtype pandas infers for a column *)

(** A column of a frame pandas has just built from Python objects.  The
    cells of a float64 column (other than NaN) and the NaT of a datetime64
    column are not values of the model: such a column is given by the cells
    it was converted from. *)
Inductive column :=
| Kept (cells : list value)
    (* dtype object, bool, int64 or datetime64: the cells are the objects *)
| Float64 (cells : list value)
    (* float64: each int stands for the float nearest it, None and NaN for NaN *)
| Datetime64 (cells : list value)
    (* datetime64[ns]: None and NaN stand for NaT *)
| Unmodelled (cells : list value).
    (* an int beyond 64 bits or a datetime beyond the nanosecond range *)

(** A frame as its constructor leaves it: the number of rows and the
    columns in their order. *)
Record Frame := mkFrame {
  index : nat;
  columns : list (string * column)
}.

Definition is_null (v : value) : bool :=
  match v with
  | Atom SNone | Atom SNaN => true
  | _ => false
  end.

Definition is_nan (v : value) : bool :=
  match v with
  | Atom SNaN => true
  | _ => false
  end.

Definition is_bool (v : value) : bool :=
  match v with
  | Atom (SBool _) => true
  | _ => false
  end.

Definition is_int (v : value) : bool :=
  match v with
  | Atom (SInt _) => true
  | _ => false
  end.

Definition is_datetime (v : value) : bool :=
  match v with
  | Atom (SDatetime _) => true
  | _ => false
  end.

(** A text, an ObjectId, a list or a dict: what makes a column an object
    column whatever else it holds. *)
Definition is_object (v : value) : bool :=
  match v with
  | Atom (SStr _) | Atom (SObjectId _) | VList _ | VDict _ => true
  | _ => false
  end.

Definition int64 (z : Z) : bool := (- 2 ^ 63 <=? z) && (z <? 2 ^ 63).

Definition beyond_int64 (v : value) : bool :=
  match v with
  | Atom (SInt z) => negb (int64 z)
  | _ => false
  end.

(** [Timestamp.min] lies in 1677 and [Timestamp.max] in 2262. *)
Definition beyond_datetime64 (v : value) : bool :=
  match v with
  | Atom (SDatetime d) => negb ((1678 <=? year d)%N && (year d <=? 2261)%N)
  | _ => false
  end.

(** [lib.maybe_convert_objects(cells, convert_non_numeric=...)], the
    inference pandas runs on an object array:
    - a text, an ObjectId, a list or a dict anywhere leaves the array as it
      is;
    - datetimes, alone or with nulls, become datetime64 when
      [convert_non_numeric] is set (the frame constructor), with NaT for
      the nulls; with anything else they stay objects;
    - bools alone become a bool array, bools with anything else stay
      objects;
    - ints alone become int64, ints with a null become float64;
    - nulls alone stay objects when all are None, and become float64 NaN
      when one of them is NaN. *)
Definition maybe_convert_objects (convert_non_numeric : bool) (cells : list value) : column :=
  if existsb beyond_int64 cells || (convert_non_numeric && existsb beyond_datetime64 cells)
  then Unmodelled cells
  else if existsb is_object cells then Kept cells
  else if existsb is_datetime cells
  then if convert_non_numeric
          && forallb (fun v => is_datetime v || is_null v) cells
          && existsb is_null cells
       then Datetime64 cells
       else Kept cells
  else if existsb is_bool cells then Kept cells
  else if existsb is_int cells
  then if existsb is_null cells then Float64 cells else Kept cells
  else if existsb is_nan cells then Kept (map (fun _ => NaN) cells)
  else Kept cells.

(** The cells of the columns, when every column has kept its objects. *)
Fixpoint kept_columns (cs : list (string * column)) : option (list (string * list value)) :=
  match cs with
  | [] => Some []
  | (k, Kept cells) :: rest => option_map (cons (k, cells)) (kept_columns rest)
  | _ => None
  end.

Definition as_table (fr : Frame) : option DataFrame :=
  option_map (mkDF (index fr)) (kept_columns (columns fr)).

(** [frame.drop(columns=names)] (errors='raise') on a frame just built. *)
Definition drop_frame_columns (names : list string) (data : Frame) : result Frame :=
  match filter (fun n => negb (has_label n (map fst (columns data)))) names with
  | [] => Ok (mkFrame (index data)
                (filter (fun col => negb (has_label (fst col) names)) (columns data)))
  | missing => Raise (KeyError (NotInAxis missing))
  end.

(** [data.applymap(f)]: a new frame; [f] is mapped over each column
    ([lib.map_infer]) and the dtype of the result is inferred anew. *)
Definition applymap (f : value -> value) (data : DataFrame) : Frame :=
  mkFrame (nrows data)
    (map (fun col => (fst col, maybe_convert_objects false (map f (snd col)))) (cols data)).

(** Python [zip( *arrays)]: nothing when there is no array. *)
Fixpoint zip_star (arrays : list (list value)) : list (list value) :=
  match arrays with
  | [] => []
  | [a] => map (fun x => [x]) a
  | a :: rest => zip_with cons a (zip_star rest)
  end.

(** [d[k] = v] on a dict. *)
Fixpoint dict_set (k : string) (v : value) (d : document) : document :=
  match d with
  | [] => [(k, v)]
  | (k', v') :: rest =>
      if String.eqb k' k then (k', v) :: rest else (k', v') :: dict_set k v rest
  end.

(** [dict(pairs)] *)
Definition dict_of (pairs : list (string * value)) : document :=
  fold_left (fun d kv => dict_set (fst kv) (snd kv) d) pairs [].

(** [d.get(k)] *)
Fixpoint dict_get (k : string) (d : document) : option value :=
  match d with
  | [] => None
  | (k', v) :: rest => if String.eqb k' k then Some v else dict_get k rest
  end.

(** [data.to_dict('records')]: [dict(zip(columns, row))] for each row of
    [data.itertuples(index=False, name=None)], which is [zip( *arrays)]. *)
Definition to_dict_records (data : DataFrame) : list document :=
  map (fun row => dict_of (zip (labels data) row)) (zip_star (map snd (cols data))).

(** One key met by [fast_unique_multiple_list_gen]: kept when it is new. *)
Definition see (seen : list string) (k : string) : list string :=
  if has_label k seen then seen else seen ++ [k].

(** The column labels of [pd.DataFrame(docs)]: the keys in the order they
    are first seen. *)
Definition first_seen (docs : list document) : list string :=
  fold_left (fun seen d => fold_left see (map fst d) seen) docs [].

(** [pd.DataFrame(docs)] for a list of dicts: a missing field is NaN, and
    the dtype of each column is inferred. *)
Definition DataFrame_of_records (docs : list document) : Frame :=
  mkFrame (length docs)
    (map (fun k => (k, maybe_convert_objects true
                         (map (fun d => default NaN (dict_get k d)) docs)))
         (first_seen docs)).

(** ** [json.dumps(value, default=str)] *)

(** One character of [py_encode_basestring_ascii] (ensure_ascii). *)
Definition escape_char (c : ascii) : string :=
  if Ascii.eqb c dquote then String backslash (str1 dquote)
  else if Ascii.eqb c backslash then String backslash (str1 backslash)
  else if Ascii.eqb c (chr 10) then String backslash "n"
  else if Ascii.eqb c (chr 13) then String backslash "r"
  else if Ascii.eqb c (chr 9) then String backslash "t"
  else if Ascii.eqb c (chr 8) then String backslash "b"
  else if Ascii.eqb c (chr 12) then String backslash "f"
  else if (32 <=? ord c)%N && (ord c <=? 126)%N then str1 c
  else String backslash (String "u" (String "0" (String "0" (hex2 (ord c))))).

Fixpoint escape_chars (s : string) : string :=
  match s with
  | EmptyString => ""
  | String c rest => escape_char c +:+ escape_chars rest
  end.

Definition encode_basestring_ascii (s : string) : string :=
  String dquote (escape_chars s +:+ str1 dquote).

(** A scalar: the JSON literal of a JSON-native one, and the encoded
    [str(o)] of any other ([default=str]).  NaN is written as the bare
    word (allow_nan). *)
Definition dumps_scalar (a : scalar) : string :=
  match a with
  | SNone => "null"
  | SNaN => "NaN"
  | SBool true => "true"
  | SBool false => "false"
  | SInt z => str_Z z
  | SStr s => encode_basestring_ascii s
  | SDatetime _ | SObjectId _ => encode_basestring_ascii (str_scalar a)
  end.

(** The default separators are [", "] and [": "]. *)
Fixpoint dumps (v : value) : string :=
  match v with
  | Atom a => dumps_scalar a
  | VList items => "[" +:+ join ", " (map dumps items) +:+ "]"
  | VDict fields =>
      "{" +:+ join ", "
               (map (fun kv => encode_basestring_ascii (fst kv) +:+ ": " +:+ dumps (snd kv))
                    fields)
      +:+ "}"
  end.

(** ** pymongo *)

(** The server behind a [MongoClient]: the documents of each collection of
    each database, and the counter the next ObjectId is made from. *)
Record MongoClient := mkClient {
  collections : gmap (string * string) (list document);
  next_oid : N
}.

(** [list(collection.find())] *)
Definition find (client : MongoClient) (db_name collection_name : string) : list document :=
  default [] (collections client !! (db_name, collection_name)).

(** [collection.delete_many({})] *)
Definition delete_many (client : MongoClient) (db_name collection_name : string) : MongoClient :=
  mkClient (<[(db_name, collection_name) := []]> (collections client)) (next_oid client).

Fixpoint assign_ids (n : N) (docs : list document) : list document * N :=
  match docs with
  | [] => ([], n)
  | d :: rest =>
      if has_label "_id" (map fst d)
      then let '(ds, n') := assign_ids n rest in (d :: ds, n')
      else let '(ds, n') := assign_ids (n + 1) rest in
           ((("_id", Atom (SObjectId (zfill 24 n))) :: d) :: ds, n')
  end.

(** [collection.insert_many(documents)]: an empty list is refused before
    anything is sent; a document without [_id] gets a fresh one.  The server
    accepts every document (write errors such as a duplicate [_id] are
    outside the model). *)
Definition insert_many (client : MongoClient) (db_name collection_name : string)
    (documents : list document) : MongoClient * result unit :=
  match documents with
  | [] => (client, Raise (TypeError "documents must be a non-empty list"))
  | _ =>
      let '(stored, n) := assign_ids (next_oid client) documents in
      (mkClient (<[(db_name, collection_name) := find client db_name collection_name ++ stored]>
                   (collections client)) n,
       Ok tt)
  end.

(** ** The functions of [gui_main.py] *)

Definition load_data (client : MongoClient) (db_name collection_name : string)
  : result Frame :=
  let data := DataFrame_of_records (find client db_name collection_name) in
  if has_label "_id" (map fst (columns data))
  then drop_frame_columns ["_id"] data
  else Ok data.

Definition save_data (client : MongoClient) (db_name collection_name : string)
    (data : DataFrame) : MongoClient * result unit :=
  let client := delete_many client db_name collection_name in
  insert_many client db_name collection_name (to_dict_records data).

Definition add_column (column_name : string) (default_value : scalar) : Py DataFrame :=
  setitem_scalar column_name default_value ;;
  get_data.

Definition merge_columns (col1 col2 new_col_name : string) (drop_originals : bool)
  : Py DataFrame :=
  a ← getitem col1;
  b ← getitem col2;
  setitem new_col_name (map VStr (series_add (astype_str a) (astype_str b))) ;;
  if drop_originals
  then data ← get_data; lift (drop_columns [col1; col2] data)
  else get_data.

Definition remove_columns (columns : list string) : Py DataFrame :=
  data ← get_data; lift (drop_columns columns data).

Definition conditional_update (column : string) (condition new_value : scalar)
  : Py DataFrame :=
  s ← getitem column;
  loc_setitem (series_eq s condition) column new_value ;;
  get_data.

Definition rename_column (old_column_name new_column_name : string) : Py DataFrame :=
  data ← get_data; mret (rename_columns old_column_name new_column_name data).

Definition serialize_complex_data (v : value) : value :=
  match v with
  | VList _ | VDict _ => VStr (dumps v)
  | Atom (SDatetime d) => VStr (isoformat d)
  | _ => v
  end.

Definition serialize_dataframe (data : DataFrame) : Frame :=
  applymap serialize_complex_data data.

(** [psql.sqldf(query, {'data': frame})]: the embedded SQL engine, which
    either returns the result frame or raises with its diagnostic. *)
Class SqlEngine := sqldf : string -> Frame -> string + DataFrame.

Definition execute_sql_query `{SqlEngine} (data : DataFrame) (query : string)
  : result DataFrame :=
  let serialized_data := serialize_dataframe data in
  match sqldf query serialized_data with
  | inr table => Ok table
  | inl diagnostic => Raise (PandaSQLException diagnostic)
  end.

(** ** The sidebar of [main] *)

(** What the page shows after a button was pressed: [st.success], [st.error],
    or the exception that ended the script run. *)
Inductive feedback :=
| Success (msg : string)
| Error (msg : string)
| Uncaught (e : exn).

(** [if s:] for a text.  A [st.selectbox] over the column labels holds
    [None] when there is no column. *)
Definition truthy (s : string) : bool := negb (String.eqb s "").

(** [data = f(data, ...); st.session_state.data = data; st.success(msg)] on
    the frame [st.session_state.data] refers to. *)
Definition commit (call : Py DataFrame) (msg : string) (session : DataFrame)
  : DataFrame * feedback :=
  match call session with
  | (_, Ok data) => (data, Success msg)
  | (object, Raise e) => (object, Uncaught e)
  end.

Definition add_column_button (new_col default_val : string) (session : DataFrame)
  : DataFrame * feedback :=
  if truthy new_col
  then commit (add_column new_col (SStr default_val))
         ("Column '" +:+ new_col +:+ "' added with default value '" +:+ default_val +:+ "'")
         session
  else (session, Error "Column name cannot be empty").

Definition merge_columns_button (col1 col2 : option string) (merged_col_name : string)
    (drop_originals : bool) (session : DataFrame) : DataFrame * feedback :=
  match col1, col2 with
  | Some c1, Some c2 =>
      if truthy c1 && truthy c2 && truthy merged_col_name
      then commit (merge_columns c1 c2 merged_col_name drop_originals)
             ("Columns '" +:+ c1 +:+ "' and '" +:+ c2 +:+ "' merged into '"
              +:+ merged_col_name +:+ "'")
             session
      else (session, Error "Please provide all details for merging columns")
  | _, _ => (session, Error "Please provide all details for merging columns")
  end.

Definition remove_columns_button (cols_to_remove : list string) (session : DataFrame)
  : DataFrame * feedback :=
  match cols_to_remove with
  | [] => (session, Error "Please select columns to remove")
  | _ => commit (remove_columns cols_to_remove)
           ("Columns " +:+ join ", " cols_to_remove +:+ " removed") session
  end.

Definition rename_column_button (old_col_name : option string) (new_col_name : string)
    (session : DataFrame) : DataFrame * feedback :=
  match old_col_name with
  | Some old =>
      if truthy old && truthy new_col_name
      then commit (rename_column old new_col_name)
             ("Column '" +:+ old +:+ "' renamed to '" +:+ new_col_name +:+ "'") session
      else (session, Error "Please provide both the old and new column names")
  | None => (session, Error "Please provide both the old and new column names")
  end.

Definition update_button (col_to_update : option string) (condition_val new_val : string)
    (session : DataFrame) : DataFrame * feedback :=
  match col_to_update with
  | Some c =>
      if truthy c && truthy condition_val && truthy new_val
      then commit (conditional_update c (SStr condition_val) (SStr new_val))
             ("Column '" +:+ c +:+ "' updated where value was '" +:+ condition_val +:+ "'")
             session
      else (session, Error "Please provide all details for the update")
  | None => (session, Error "Please provide all details for the update")
  end.

(** The [try]/[except Exception] around the query. *)
Definition execute_sql_button `{SqlEngine} (query : string) (session : DataFrame)
  : DataFrame * feedback :=
  if truthy query
  then match execute_sql_query session query with
       | Ok query_result => (query_result, Success "SQL query executed successfully")
       | Raise e => (session, Error ("Error executing SQL query: " +:+ str_exn e))
       end
  else (session, Error "Please enter a SQL query").

Definition save_data_button (client : MongoClient) (db_name collection_name : string)
    (edited_data : DataFrame) : MongoClient * feedback :=
  match save_data client db_name collection_name edited_data with
  | (client', Ok _) => (client', Success "Data saved successfully!")
  | (client', Raise e) => (client', Uncaught e)
  end.

(** ** JSON text and [json.loads] *)

(** What [json.loads] builds, written as a tree: a float keeps its literal,
    an object its members in the order of the text, a string its code
    points.  [JNaN] and [JInfinity] are the words Python reads beside the
    JSON grammar. *)
Inductive json :=
| JNull
| JBool (b : bool)
| JInt (z : Z)
| JFloat (literal : string)
| JNaN
| JInfinity (negative : bool)
| JString (s : list N)
| JArray (items : list json)
| JObject (members : list (list N * json)).

Definition codepoints (s : string) : list N := map ord (list_ascii_of_string s).

Definition is_ws (c : ascii) : bool :=
  Ascii.eqb c " " || Ascii.eqb c (chr 9) || Ascii.eqb c (chr 10) || Ascii.eqb c (chr 13).

Fixpoint skip_ws (s : string) : string :=
  match s with
  | String c rest => if is_ws c then skip_ws rest else s
  | EmptyString => s
  end.

Definition is_digit (c : ascii) : bool := (48 <=? ord c)%N && (ord c <=? 57)%N.

Definition hex_value (c : ascii) : option N :=
  let n := ord c in
  if (48 <=? n)%N && (n <=? 57)%N then Some (n - 48)%N
  else if (97 <=? n)%N && (n <=? 102)%N then Some (n - 87)%N
  else if (65 <=? n)%N && (n <=? 70)%N then Some (n - 55)%N
  else None.

(** [_decode_uXXXX] *)
Definition hex4_value (a b c d : ascii) : option N :=
  match hex_value a, hex_value b, hex_value c, hex_value d with
  | Some x, Some y, Some z, Some w => Some (((x * 16 + y) * 16 + z) * 16 + w)%N
  | _, _, _, _ => None
  end.

Definition simple_escape (c : ascii) : option N :=
  if Ascii.eqb c dquote then Some 34%N
  else if Ascii.eqb c backslash then Some 92%N
  else if Ascii.eqb c "/" then Some 47%N
  else if Ascii.eqb c "b" then Some 8%N
  else if Ascii.eqb c "f" then Some 12%N
  else if Ascii.eqb c "n" then Some 10%N
  else if Ascii.eqb c "r" then Some 13%N
  else if Ascii.eqb c "t" then Some 9%N
  else None.

Definition is_high_surrogate (n : N) : bool := (55296 <=? n)%N && (n <=? 56319)%N.
Definition is_low_surrogate (n : N) : bool := (56320 <=? n)%N && (n <=? 57343)%N.
Definition join_surrogates (hi lo : N) : N :=
  (65536 + N.lor (N.shiftl (hi - 55296) 10) (lo - 56320))%N.

Definition prepend {A} (n : N) (r : option (list N * A)) : option (list N * A) :=
  match r with
  | Some (cs, rest) => Some (n :: cs, rest)
  | None => None
  end.

(** [py_scanstring] (strict) from just after the opening quote: the code
    points up to the closing quote, and the text after it. *)
Fixpoint scan_string (s : string) : option (list N * string) :=
  match s with
  | EmptyString => None
  | String c rest =>
      if Ascii.eqb c dquote then Some ([], rest)
      else if Ascii.eqb c backslash then
        match rest with
        | EmptyString => None
        | String e rest1 =>
            match simple_escape e with
            | Some n => prepend n (scan_string rest1)
            | None =>
                if Ascii.eqb e "u" then
                  match rest1 with
                  | String h1 (String h2 (String h3 (String h4 rest2))) =>
                      match hex4_value h1 h2 h3 h4 with
                      | None => None
                      | Some uni =>
                          if is_high_surrogate uni then
                            match rest2 with
                            | String b2 (String u2 rest3) =>
                                if Ascii.eqb b2 backslash && Ascii.eqb u2 "u" then
                                  match rest3 with
                                  | String l1 (String l2 (String l3 (String l4 rest4))) =>
                                      match hex4_value l1 l2 l3 l4 with
                                      | None => None
                                      | Some uni2 =>
                                          if is_low_surrogate uni2
                                          then prepend (join_surrogates uni uni2) (scan_string rest4)
                                          else prepend uni (scan_string rest2)
                                      end
                                  | _ => None
                                  end
                                else prepend uni (scan_string rest2)
                            | _ => prepend uni (scan_string rest2)
                            end
                          else prepend uni (scan_string rest2)
                      end
                  | _ => None
                  end
                else None
            end
        end
      else if (ord c <? 32)%N then None
      else prepend (ord c) (scan_string rest)
  end.

(** The longest prefix of digits, and what follows it. *)
Fixpoint span_digits (s : string) : string * string :=
  match s with
  | String c rest =>
      if is_digit c
      then let '(ds, r) := span_digits rest in (String c ds, r)
      else ("", s)
  | EmptyString => ("", "")
  end.

Definition N_of_digits (ds : string) : N :=
  match NilEmpty.uint_of_string ds with
  | Some u => N.of_uint u
  | None => 0%N
  end.

(** The integer part of NUMBER_RE, [0|[1-9]\d*], without the sign. *)
Definition scan_int_part (s : string) : option (string * string) :=
  match s with
  | String c rest =>
      if Ascii.eqb c "0" then Some ("0", rest)
      else if is_digit c then Some (span_digits s)
      else None
  | EmptyString => None
  end.

(** [(\.\d+)?] *)
Definition scan_frac (s : string) : string * string :=
  match s with
  | String c rest =>
      if Ascii.eqb c "." then
        match span_digits rest with
        | (EmptyString, _) => ("", s)
        | (ds, r) => (String "." ds, r)
        end
      else ("", s)
  | EmptyString => ("", s)
  end.

(** [([eE][-+]?\d+)?] *)
Definition scan_exp (s : string) : string * string :=
  match s with
  | String c rest =>
      if Ascii.eqb c "e" || Ascii.eqb c "E" then
        let '(sign, rest') :=
          match rest with
          | String g r => if Ascii.eqb g "-" || Ascii.eqb g "+" then (str1 g, r) else ("", rest)
          | EmptyString => ("", rest)
          end in
        match span_digits rest' with
        | (EmptyString, _) => ("", s)
        | (ds, r) => (String c (sign +:+ ds), r)
        end
      else ("", s)
  | EmptyString => ("", s)
  end.

(** A number at the head of [s]: an [int] when the text has neither a
    fraction nor an exponent, a float otherwise. *)
Definition scan_number (s : string) : option (json * string) :=
  let '(negative, s1) :=
    match s with
    | String c rest => if Ascii.eqb c "-" then (true, rest) else (false, s)
    | EmptyString => (false, s)
    end in
  match scan_int_part s1 with
  | None => None
  | Some (ds, r1) =>
      let '(frac, r2) := scan_frac r1 in
      let '(exp, r3) := scan_exp r2 in
      match frac, exp with
      | EmptyString, EmptyString =>
          Some (JInt (if negative then - Z.of_N (N_of_digits ds) else Z.of_N (N_of_digits ds)), r1)
      | _, _ =>
          Some (JFloat ((if negative then "-" else "") +:+ ds +:+ frac +:+ exp), r3)
      end
  end.

(** [s] starts with [word]: what follows it. *)
Fixpoint strip_prefix (word s : string) : option string :=
  match word, s with
  | EmptyString, _ => Some s
  | String w word', String c rest => if Ascii.eqb w c then strip_prefix word' rest else None
  | String _ _, EmptyString => None
  end.

Definition scan_word (word : string) (j : json) (s : string) : option (json * string) :=
  match strip_prefix word s with
  | Some rest => Some (j, rest)
  | None => None
  end.

(** [scan_once], [JSONArray] and [JSONObject] of the decoder.  Every call
    spends one unit of [fuel]. *)
Fixpoint scan_once (fuel : nat) (s : string) : option (json * string) :=
  match fuel with
  | O => None
  | S fuel' =>
      match s with
      | EmptyString => None
      | String c rest =>
          if Ascii.eqb c dquote then
            match scan_string rest with
            | Some (cs, r) => Some (JString cs, r)
            | None => None
            end
          else if Ascii.eqb c "{" then
            match skip_ws rest with
            | String c' r =>
                if Ascii.eqb c' "}" then Some (JObject [], r)
                else match scan_members fuel' (skip_ws rest) with
                     | Some (ms, r') => Some (JObject ms, r')
                     | None => None
                     end
            | EmptyString => None
            end
          else if Ascii.eqb c "[" then
            match skip_ws rest with
            | String c' r =>
                if Ascii.eqb c' "]" then Some (JArray [], r)
                else match scan_items fuel' (skip_ws rest) with
                     | Some (vs, r') => Some (JArray vs, r')
                     | None => None
                     end
            | EmptyString => None
            end
          else if Ascii.eqb c "n" then scan_word "null" JNull s
          else if Ascii.eqb c "t" then scan_word "true" (JBool true) s
          else if Ascii.eqb c "f" then scan_word "false" (JBool false) s
          else
            match scan_number s with
            | Some r => Some r
            | None =>
                if Ascii.eqb c "N" then scan_word "NaN" JNaN s
                else if Ascii.eqb c "I" then scan_word "Infinity" (JInfinity false) s
                else if Ascii.eqb c "-" then scan_word "-Infinity" (JInfinity true) s
                else None
            end
      end
  end
with scan_items (fuel : nat) (s : string) : option (list json * string) :=
  match fuel with
  | O => None
  | S fuel' =>
      match scan_once fuel' s with
      | None => None
      | Some (v, r) =>
          match skip_ws r with
          | String c r' =>
              if Ascii.eqb c "]" then Some ([v], r')
              else if Ascii.eqb c "," then
                match scan_items fuel' (skip_ws r') with
                | Some (vs, r'') => Some (v :: vs, r'')
                | None => None
                end
              else None
          | EmptyString => None
          end
      end
  end
with scan_members (fuel : nat) (s : string) : option (list (list N * json) * string) :=
  match fuel with
  | O => None
  | S fuel' =>
      match s with
      | String q rest =>
          if Ascii.eqb q dquote then
            match scan_string rest with
            | None => None
            | Some (key, r) =>
                match skip_ws r with
                | String colon r1 =>
                    if Ascii.eqb colon ":" then
                      match scan_once fuel' (skip_ws r1) with
                      | None => None
                      | Some (v, r2) =>
                          match skip_ws r2 with
                          | String c r3 =>
                              if Ascii.eqb c "}" then Some ([(key, v)], r3)
                              else if Ascii.eqb c "," then
                                match scan_members fuel' (skip_ws r3) with
                                | Some (ms, r4) => Some ((key, v) :: ms, r4)
                                | None => None
                                end
                              else None
                          | EmptyString => None
                          end
                      end
                    else None
                | EmptyString => None
                end
            end
          else None
      | EmptyString => None
      end
  end.

(** [json.loads(text)]: one value between optional white space, and
    nothing after it.  The length of the text is fuel enough. *)
Definition loads (text : string) : option json :=
  match scan_once (String.length text) (skip_ws text) with
  | Some (j, rest) =>
      match skip_ws rest with
      | EmptyString => Some j
      | String _ _ => None
      end
  | None => None
  end.

(** The grammar of RFC 8259 has no word for a float that is not finite. *)
Fixpoint strict_json (j : json) : bool :=
  match j with
  | JNaN | JInfinity _ => false
  | JArray items => forallb strict_json items
  | JObject members => forallb (fun m => strict_json (snd m)) members
  | _ => true
  end.

Definition valid_json (text : string) : Prop :=
  exists j, loads text = Some j /\ strict_json j = true.

(** The structure [json.dumps(v, default=str)] writes: [v] with every
    object that JSON has no literal for replaced by its [str]. *)
Definition json_of_scalar (a : scalar) : json :=
  match a with
  | SNone => JNull
  | SNaN => JNaN
  | SBool b => JBool b
  | SInt z => JInt z
  | SStr s => JString (codepoints s)
  | SDatetime _ | SObjectId _ => JString (codepoints (str_scalar a))
  end.

Fixpoint json_of_value (v : value) : json :=
  match v with
  | Atom a => json_of_scalar a
  | VList items => JArray (map json_of_value items)
  | VDict fields =>
      JObject (map (fun kv => (codepoints (fst kv), json_of_value (snd kv))) fields)
  end.

Fixpoint nan_free (v : value) : bool :=
  match v with
  | Atom SNaN => false
  | Atom _ => true
  | VList items => forallb nan_free items
  | VDict fields => forallb (fun kv => nan_free (snd kv)) fields
  end.

Definition is_composite (v : value) : bool :=
  match v with
  | Atom _ => false
  | _ => true
  end.

(** Fuel that [scan_once] needs on [dumps v]. *)
Fixpoint size (v : value) : nat :=
  match v with
  | Atom _ => 1
  | VList items => S (list_sum (map (fun x => S (size x)) items))
  | VDict fields => S (list_sum (map (fun kv => S (size (snd kv))) fields))
  end.

(** ** The five column transforms as one vocabulary *)

Inductive transform :=
| AddColumn (name : string) (defaultValue : scalar)
| MergeColumns (colA colB newName : string) (dropOriginals : bool)
| RemoveColumns (names : list string)
| RenameColumn (oldName newName : string)
| ConditionalUpdate (column : string) (matchValue newValue : scalar).

Definition apply_transform (t : transform) : Py DataFrame :=
  match t with
  | AddColumn name v => add_column name v
  | MergeColumns a b n d => merge_columns a b n d
  | RemoveColumns names => remove_columns names
  | RenameColumn old new => rename_column old new
  | ConditionalUpdate c m n => conditional_update c m n
  end.

(** A parameter names a column the table does not have. *)
Definition names_missing_column (t : transform) (data : DataFrame) : Prop :=
  match t with
  | AddColumn _ _ => False
  | MergeColumns a b _ _ => a ∉ labels data \/ b ∉ labels data
  | RemoveColumns names => exists n, n ∈ names /\ n ∉ labels data
  | RenameColumn _ _ => False
  | ConditionalUpdate c _ _ => c ∉ labels data
  end.

(** A rename onto the label of another column. *)
Definition rename_collides (t : transform) (data : DataFrame) : Prop :=
  match t with
  | RenameColumn old new => old ∈ labels data /\ new ∈ labels data /\ new <> old
  | _ => False
  end.

(** The buttons of the sidebar with what the widgets beside them hold. *)
Inductive button :=
| AddColumnButton (new_col default_val : string)
| MergeColumnsButton (col1 col2 : option string) (merged_col_name : string)
    (drop_originals : bool)
| RemoveColumnsButton (cols_to_remove : list string)
| RenameColumnButton (old_col_name : option string) (new_col_name : string)
| UpdateButton (col_to_update : option string) (condition_val new_val : string).

Definition press (b : button) (session : DataFrame) : DataFrame * feedback :=
  match b with
  | AddColumnButton n d => add_column_button n d session
  | MergeColumnsButton a b' n d => merge_columns_button a b' n d session
  | RemoveColumnsButton names => remove_columns_button names session
  | RenameColumnButton old new => rename_column_button old new session
  | UpdateButton c m n => update_button c m n session
  end.

Definition is_success (f : feedback) : bool :=
  match f with
  | Success _ => true
  | _ => false
  end.

(** The keys of a stream in the order of their first occurrence, as the
    specification words it. *)
Fixpoint first_occurrences (stream : list string) : list string :=
  match stream with
  | [] => []
  | k :: rest => k :: filter (fun k' => negb (String.eqb k' k)) (first_occurrences rest)
  end.

(** ** Tables and collections used as concrete inputs *)

Definition table_ab : DataFrame :=
  mkDF 2 [("a", [VStr "x"; Atom (SInt 1)]); ("b", [VStr "y"; NaN])].

Definition table_people : DataFrame :=
  mkDF 2 [("name", [VStr "Ann"; VStr "Bo"]); ("age", [Atom (SInt 30); Atom SNone])].

Definition empty_table : DataFrame := mkDF 0 [("name", []); ("age", [])].

Definition docs_people : list document :=
  [ [("_id", Atom (SObjectId "65f000000000000000000001")); ("name", VStr "Ann");
     ("tags", VList [VStr "x"; VStr "y"])];
    [("_id", Atom (SObjectId "65f000000000000000000002")); ("age", Atom (SInt 41));
     ("name", VStr "Bo")] ].


Definition client_of (docs : list document) : MongoClient :=
  mkClient {[ ("shop", "people") := docs ]} 7.

(** An engine that knows one query. *)
Definition select_all_engine : SqlEngine :=
  fun query table =>
    if String.eqb query "SELECT * FROM data"
    then match as_table table with
         | Some data => inr data
         | None => inl "unsupported column type"
         end
    else inl ("near " +:+ query +:+ ": syntax error").

(** ** Notions the statements and proofs use *)

(** The column [merge_columns] writes. *)
Definition merged (a b : list value) : list value :=
  map VStr (series_add (astype_str a) (astype_str b)).

(** The keys of the documents in the order [pd.DataFrame] meets them. *)
Definition key_stream (docs : list document) : list string :=
  concat (map (map fst) docs).

(** The cells of column [k]. *)
Definition column_of (docs : list document) (k : string) : list value :=
  map (fun d => default NaN (dict_get k d)) docs.

(** Every field but the identifier the store assigns. *)
Definition not_id (k : string) : bool := negb (String.eqb k "_id").

(** The text after a value inside an array or an object, or the end. *)
Definition ends_value (rest : string) : bool :=
  match rest with
  | EmptyString => true
  | String c _ => Ascii.eqb c "," || Ascii.eqb c "]" || Ascii.eqb c "}"
  end.

(** The first character of a value: not white space, not a closing
    bracket. *)
Definition starts_value (s : string) : bool :=
  match s with
  | EmptyString => false
  | String c _ => negb (is_ws c) && negb (Ascii.eqb c "]") && negb (Ascii.eqb c "}")
  end.

(** The text of the items of an array, the closing bracket and what
    follows. *)
Definition items_text (items : list value) (rest : string) : string :=
  join ", " (map dumps items) +:+ String "]" rest.

Definition member_text (kv : string * value) : string :=
  encode_basestring_ascii (fst kv) +:+ ": " +:+ dumps (snd kv).

Definition members_text (fields : list (string * value)) (rest : string) : string :=
  join ", " (map member_text fields) +:+ String "}" rest.

(** What the induction gives for one value. *)
Definition scans_back (v : value) : Prop :=
  forall fuel rest, (size v <= fuel)%nat -> ends_value rest = true ->
    scan_once fuel (dumps v +:+ rest) = Some (json_of_value v, rest).

Definition all_digits (s : string) : bool :=
  forallb is_digit (list_ascii_of_string s).

(** [w] digits exactly. *)
Definition is_field (w : nat) (s : string) : bool :=
  Nat.eqb (String.length s) w && all_digits s.

(** The ranges of the fields of a [datetime]. *)
Definition valid_datetime (d : datetime) : Prop :=
  (1 <= year d <= 9999)%N /\ (1 <= month d <= 12)%N /\ (1 <= day d <= 31)%N
  /\ (hour d <= 23)%N /\ (minute d <= 59)%N /\ (second d <= 59)%N
  /\ (microsecond d <= 999999)%N.

(** The extended format of ISO 8601 for a local date and time:
    YYYY-MM-DDThh:mm:ss, with an optional fraction of six digits. *)
Definition iso8601_shape (s : string) : Prop :=
  exists Y M D h m sec frac,
    s = Y +:+ "-" +:+ M +:+ "-" +:+ D +:+ "T" +:+ h +:+ ":" +:+ m +:+ ":" +:+ sec +:+ frac
    /\ is_field 4 Y = true /\ is_field 2 M = true /\ is_field 2 D = true
    /\ is_field 2 h = true /\ is_field 2 m = true /\ is_field 2 sec = true
    /\ (frac = "" \/ exists f, frac = "." +:+ f /\ is_field 6 f = true).

(** ** Uploads and the buttons of the main page *)

(** What [st.file_uploader] hands over. *)
Record UploadedFile := mkUpload {
  name : string;
  content : string
}.

(** [pd.read_csv] and [pd.read_excel]: the table, or the message of the
    exception the parser raises. *)
Class TableReaders := {
  read_csv : UploadedFile -> string + DataFrame;
  read_excel : UploadedFile -> string + DataFrame
}.

(** [s.endswith(suffix)] *)
Definition endswith (s suffix : string) : bool :=
  let n := String.length s in
  let m := String.length suffix in
  if (n <? m)%nat then false
  else String.eqb (substring (n - m) m s) suffix.

(** [process_uploaded_file]: the table, if any, and what [st.error] showed. *)
Definition process_uploaded_file `{TableReaders} (uploaded_file : option UploadedFile)
  : option DataFrame * list feedback :=
  match uploaded_file with
  | Some file =>
      let parsed :=
        if endswith (name file) ".csv" then Some (read_csv file)
        else if endswith (name file) ".xlsx" then Some (read_excel file)
        else None in
      match parsed with
      | None =>
          (None, [Error "Unsupported file type. Please upload a CSV or Excel file."])
      | Some (inr data) => (Some data, [])
      | Some (inl e) => (None, [Error ("Error processing file: " +:+ e)])
      end
  | None => (None, [])
  end.

(** The server and [st.session_state]: the current table, once there is
    one. *)
Record app_state := mkApp {
  store : MongoClient;
  session_data : option DataFrame
}.

(** The "Upload and Save Data" button. *)
Definition upload_and_save_button `{TableReaders} (uploaded_file : option UploadedFile)
    (db_name collection_name : string) (app : app_state) : app_state * list feedback :=
  match uploaded_file with
  | Some file =>
      if truthy db_name && truthy collection_name
      then match process_uploaded_file (Some file) with
           | (Some data, shown) =>
               match save_data (store app) db_name collection_name data with
               | (client, Ok _) =>
                   (mkApp client (Some data),
                    shown ++ [Success ("File '" +:+ name file +:+ "' uploaded and saved to "
                                       +:+ db_name +:+ "." +:+ collection_name +:+ "!")])
               | (client, Raise e) => (mkApp client (session_data app), shown ++ [Uncaught e])
               end
           | (None, shown) => (app, shown)
           end
      else (app, [Error "Please upload a file and select a database and collection."])
  | None => (app, [Error "Please upload a file and select a database and collection."])
  end.

(** Readers that know one file. *)
Definition toy_readers : TableReaders := {|
  read_csv := fun file =>
    if String.eqb (content file) "name,age" then inr (mkDF 0 [("name", []); ("age", [])])
    else inl "Error tokenizing data";
  read_excel := fun _ => inl "File is not a zip file"
|}.

(** Every character is printable ASCII. *)
Definition printable_ascii (s : string) : bool :=
  forallb (fun c => (32 <=? ord c)%N && (ord c <=? 126)%N) (list_ascii_of_string s).

(** A cell the SQL engine can take: neither a list, a dict nor a datetime. *)
Definition flat_cell (v : value) : bool :=
  match v with
  | Atom (SDatetime _) => false
  | Atom _ => true
  | _ => false
  end.

Definition table_sales : DataFrame :=
  mkDF 2 [("item", [VStr "pen"; VStr "ink"]);
          ("tags", [VList [VStr "x"]; NaN]);
          ("qty", [Atom (SInt 3); Atom (SInt 0)])].

(** Documents in which every column keeps its cells. *)
Definition docs_notes : list document :=
  [ [("_id", Atom (SObjectId "65f000000000000000000004")); ("title", VStr "todo");
     ("tags", VList [VStr "x"; VStr "y"])];
    [("_id", Atom (SObjectId "65f000000000000000000005")); ("done", Atom (SBool true));
     ("title", VStr "list")] ].

(** Inference leaves the cells as they are. *)
Definition kept_as_is (convert_non_numeric : bool) (cells : list value) : Prop :=
  maybe_convert_objects convert_non_numeric cells = Kept cells.

(** Ints of 64 bits and nulls, at least one of each. *)
Definition ints_and_nulls (cells : list value) : bool :=
  forallb (fun v => (is_int v && negb (beyond_int64 v)) || is_null v) cells
  && existsb is_int cells && existsb is_null cells.

(** A database or collection name pymongo and the server take whatever
    their version: letters, digits, [_] and [-], at least one and no more
    than sixty. *)
Definition name_char (c : ascii) : bool :=
  let n := ord c in
  ((48 <=? n) && (n <=? 57) || (65 <=? n) && (n <=? 90) || (97 <=? n) && (n <=? 122)
   || (n =? 95) || (n =? 45))%N.

Definition plain_name (s : string) : bool :=
  negb (String.eqb s "") && forallb name_char (list_ascii_of_string s)
  && (String.length s <=? 60)%nat.

(** A field name every version of the server takes: not empty, without
    NUL or dot, not beginning with a dollar. *)
Definition plain_key (k : string) : bool :=
  match k with
  | EmptyString => false
  | String c _ =>
      negb (Ascii.eqb c "$") && negb (contains_char (chr 0) k) && negb (contains_char "." k)
  end.

(** A value BSON holds exactly, so that the store gives it back as it was
    sent: an int of 64 bits, a datetime of whole milliseconds, field names
    the server takes. *)
Fixpoint bson_exact (v : value) : bool :=
  match v with
  | Atom (SInt z) => int64 z
  | Atom (SDatetime d) => (microsecond d mod 1000 =? 0)%N
  | Atom _ => true
  | VList items => forallb bson_exact items
  | VDict fields => forallb (fun kv => plain_key (fst kv) && bson_exact (snd kv)) fields
  end.

(** A column that comes back from the store and from the frame constructor
    as it is. *)
Definition round_trips (col : string * list value) : Prop :=
  plain_key (fst col) = true
  /\ forallb bson_exact (snd col) = true
  /\ kept_as_is true (snd col).

(** The cells a column was built from. *)
Definition column_cells (c : column) : list value :=
  match c with
  | Kept cells | Float64 cells | Datetime64 cells | Unmodelled cells => cells
  end.

(** * Proofs *)

(** ** Labels and columns *)

Lemma has_label_elem (c : string) (ls : list string) :
  has_label c ls = true <-> c ∈ ls.
Proof.
  unfold has_label. rewrite existsb_exists. split.
  - intros (x & Hx & Heq). apply String.eqb_eq in Heq. subst.
    by apply list_elem_of_In.
  - intros Hc. exists c. split; [by apply list_elem_of_In | apply String.eqb_refl].
Qed.

Lemma has_label_false (c : string) (ls : list string) :
  has_label c ls = false <-> c ∉ ls.
Proof.
  rewrite <- has_label_elem. destruct (has_label c ls); split; congruence.
Qed.

Lemma find_col_Some (c : string) (cs : list (string * list value)) (s : list value) :
  find_col c cs = Some s -> (c, s) ∈ cs.
Proof.
  induction cs as [|[l x] cs IH]; simpl; [done|].
  destruct (String.eqb l c) eqn:E.
  - apply String.eqb_eq in E. intros [= ->]. subst. left.
  - intros H. right. auto.
Qed.

Lemma find_col_None (c : string) (cs : list (string * list value)) :
  find_col c cs = None <-> c ∉ map fst cs.
Proof.
  induction cs as [|[l x] cs IH]; simpl.
  - split; [intros _; apply not_elem_of_nil | done].
  - destruct (String.eqb l c) eqn:E.
    + apply String.eqb_eq in E. subst. split; [done|]. intros H. exfalso. apply H. left.
    + apply String.eqb_neq in E. rewrite IH. rewrite not_elem_of_cons. intuition congruence.
Qed.

Lemma find_col_is_Some (c : string) (cs : list (string * list value)) :
  c ∈ map fst cs -> exists s, find_col c cs = Some s.
Proof.
  intros H. destruct (find_col c cs) eqn:E; [eauto|].
  apply find_col_None in E. done.
Qed.

Lemma DataFrame_eta (df : DataFrame) : mkDF (nrows df) (cols df) = df.
Proof. by destruct df. Qed.

(** ** [rename_column] *)

Lemma rename_column_run (old new : string) (df : DataFrame) :
  rename_column old new df = (df, Ok (rename_columns old new df)).
Proof. reflexivity. Qed.

Lemma labels_rename (old new : string) (df : DataFrame) :
  labels (rename_columns old new df)
  = map (fun l => if String.eqb l old then new else l) (labels df).
Proof.
  unfold labels, rename_columns. simpl. rewrite !map_map.
  apply map_ext. intros [l s]. simpl. by destruct (String.eqb l old).
Qed.

Lemma values_rename (old new : string) (df : DataFrame) :
  map snd (cols (rename_columns old new df)) = map snd (cols df).
Proof.
  unfold rename_columns. simpl. rewrite map_map.
  apply map_ext. intros [l s]. simpl. by destruct (String.eqb l old).
Qed.

Lemma rename_back (old new : string) (df : DataFrame) :
  new ∉ labels df \/ new = old ->
  rename_columns new old (rename_columns old new df) = df.
Proof.
  intros Hfree. destruct df as [n cs]. unfold rename_columns, labels in *. simpl in *.
  f_equal. rewrite map_map.
  induction cs as [|[l s] cs IH]; simpl; [done|].
  rewrite IH.
  2:{ destruct Hfree as [H|H]; [left|by right]. simpl in H.
      by apply not_elem_of_cons in H as [_ H]. }
  f_equal. destruct (String.eqb l old) eqn:E; simpl.
  - rewrite String.eqb_refl. apply String.eqb_eq in E. by subst.
  - destruct (String.eqb l new) eqn:E'; [|done].
    apply String.eqb_eq in E'. subst l.
    destruct Hfree as [H|H].
    + exfalso. apply H. simpl. left.
    + subst. by rewrite String.eqb_refl in E.
Qed.

Lemma rename_missing (old new : string) (df : DataFrame) :
  old ∉ labels df -> rename_columns old new df = df.
Proof.
  intros Hout. destruct df as [n cs]. unfold rename_columns, labels in *. simpl in *.
  f_equal. induction cs as [|[l s] cs IH]; simpl; [done|].
  simpl in Hout. apply not_elem_of_cons in Hout as [Hne Hout].
  rewrite IH by done. destruct (String.eqb l old) eqn:E; [|done].
  apply String.eqb_eq in E. congruence.
Qed.

(** C9: when [newName] is not the label of another column, renaming
    [oldName] to [newName] and then [newName] back to [oldName] returns the
    table it started from, labels and cells alike; neither call fails and
    neither touches the frame it was given. *)
Theorem rename_round_trip (old new : string) (df : DataFrame) :
  new ∉ labels df \/ new = old ->
  exists renamed,
    rename_column old new df = (df, Ok renamed)
    /\ map snd (cols renamed) = map snd (cols df)
    /\ rename_column new old renamed = (renamed, Ok df).
Proof.
  intros Hfree. exists (rename_columns old new df). split; [done|]. split.
  - apply values_rename.
  - rewrite rename_column_run. by rewrite rename_back.
Qed.

Lemma rename_round_trip_witness :
  exists renamed,
    rename_column "name" "who" table_people = (table_people, Ok renamed)
    /\ map snd (cols renamed) = map snd (cols table_people)
    /\ rename_column "who" "name" renamed = (renamed, Ok table_people).
Proof.
  apply (rename_round_trip "name" "who" table_people).
  left. unfold table_people, labels. simpl.
  intros H. apply list_elem_of_In in H. simpl in H. intuition discriminate.
Defined.

(** ** [drop] and [remove_columns] *)

Lemma drop_columns_missing (names : list string) (df : DataFrame) (n : string) :
  n ∈ names -> n ∉ labels df ->
  exists missing, n ∈ missing /\ drop_columns names df = Raise (KeyError (NotInAxis missing)).
Proof.
  intros Hn Hout. unfold drop_columns.
  set (missing := filter _ names).
  assert (Hin : n ∈ missing).
  { apply list_elem_of_filter. split; [|done].
    apply has_label_false in Hout. by rewrite Hout. }
  destruct missing as [|m ms]; [by apply elem_of_nil in Hin|].
  eauto.
Qed.

Lemma drop_columns_present (names : list string) (df : DataFrame) :
  Forall (fun n => n ∈ labels df) names ->
  drop_columns names df
  = Ok (mkDF (nrows df) (filter (fun col => negb (has_label (fst col) names)) (cols df))).
Proof.
  intros Hall. unfold drop_columns.
  set (missing := filter _ names).
  assert (Hnil : missing = []).
  { apply elem_of_nil_inv. intros n Hn. apply list_elem_of_filter in Hn as [Hout Hn].
    rewrite Forall_forall in Hall. apply Hall in Hn.
    apply has_label_elem in Hn. by rewrite Hn in Hout. }
  by rewrite Hnil.
Qed.

Lemma labels_filter (P : string * list value -> bool) (cs : list (string * list value))
    (l : string) :
  l ∈ map fst (filter (fun col => P col) cs) -> l ∈ map fst cs.
Proof.
  rewrite !list_elem_of_fmap. intros (col & -> & H).
  apply list_elem_of_filter in H as [_ H]. eauto.
Qed.

Lemma find_col_filter (names : list string) (cs : list (string * list value)) (l : string) :
  l ∉ names ->
  find_col l (filter (fun col => negb (has_label (fst col) names)) cs) = find_col l cs.
Proof.
  intros Hl. induction cs as [|[k s] cs IH]; [done|].
  destruct (has_label k names) eqn:Hk.
  - rewrite filter_cons_False by (simpl; rewrite Hk; by intros []).
    simpl. destruct (String.eqb k l) eqn:E; [|done].
    apply String.eqb_eq in E. subst k. apply has_label_elem in Hk. done.
  - rewrite filter_cons_True by (simpl; by rewrite Hk).
    simpl. by rewrite IH.
Qed.

Lemma labels_drop (names : list string) (df : DataFrame) (l : string) :
  l ∈ map fst (filter (fun col => negb (has_label (fst col) names)) (cols df))
  <-> l ∈ labels df /\ l ∉ names.
Proof.
  unfold labels. rewrite !list_elem_of_fmap. split.
  - intros (col & -> & H). apply list_elem_of_filter in H as [Hk H]. split; [eauto|].
    apply has_label_false. by destruct (has_label col.1 names).
  - intros [(col & -> & H) Hout]. exists col. split; [done|].
    apply list_elem_of_filter. split; [|done].
    apply has_label_false in Hout. by rewrite Hout.
Qed.

(** C4, as the code has it: when every name is a column, [remove_columns]
    returns a new table without those columns, every other column as it was
    and the row count unchanged; a name that is not a column is not
    ignored: the call raises KeyError naming it and the table is left as it
    was, so removing the same names a second time fails. *)
Theorem remove_columns_spec (names : list string) (df : DataFrame) :
  (Forall (fun n => n ∈ labels df) names ->
   exists df',
     remove_columns names df = (df, Ok df')
     /\ nrows df' = nrows df
     /\ (forall l, l ∈ labels df' <-> l ∈ labels df /\ l ∉ names)
     /\ (forall l, l ∉ names -> find_col l (cols df') = find_col l (cols df))
     /\ (forall n, n ∈ names ->
           exists missing, n ∈ missing
             /\ remove_columns names df' = (df', Raise (KeyError (NotInAxis missing)))))
  /\ (forall n, n ∈ names -> n ∉ labels df ->
        exists missing, n ∈ missing
          /\ remove_columns names df = (df, Raise (KeyError (NotInAxis missing)))).
Proof.
  assert (Hfail : forall d n, n ∈ names -> n ∉ labels d ->
            exists missing, n ∈ missing
              /\ remove_columns names d = (d, Raise (KeyError (NotInAxis missing)))).
  { intros d n Hn Hout. destruct (drop_columns_missing names d n Hn Hout) as (m & Hm & E).
    exists m. split; [done|]. unfold remove_columns, get_data, lift, mbind, Py_bind.
    by rewrite E. }
  split; [|by apply Hfail].
  intros Hall. eexists. split.
  { unfold remove_columns, get_data, lift, mbind, Py_bind.
    by rewrite (drop_columns_present names df Hall). }
  split; [done|]. split; [apply labels_drop|]. split.
  { intros l Hl. simpl. by apply find_col_filter. }
  intros n Hn. apply Hfail; [done|].
  unfold labels. simpl. intros H. apply labels_drop in H as [_ H]. done.
Qed.

(** C4 as the specification states it fails: a name that is not a column
    makes [remove_columns] raise. *)
Lemma remove_columns_absent_name_raises :
  remove_columns ["zip"] table_people = (table_people, Raise (KeyError (NotInAxis ["zip"]))).
Proof. reflexivity. Qed.

Lemma remove_columns_spec_witness :
  exists df',
    remove_columns ["age"] table_people = (table_people, Ok df')
    /\ labels df' = ["name"]
    /\ exists missing,
         remove_columns ["age"] df' = (df', Raise (KeyError (NotInAxis missing))).
Proof.
  destruct (remove_columns_spec ["age"] table_people) as [Hok _].
  assert (Hall : Forall (fun n => n ∈ labels table_people) ["age"]).
  { repeat constructor. }
  destruct (Hok Hall) as (df' & Hrun & _ & _ & _ & Hagain).
  exists df'. split; [done|]. split.
  - injection Hrun as <-. reflexivity.
  - destruct (Hagain "age") as (m & _ & Hm); [left|]. eauto.
Defined.

(** ** [data[c] = ...] *)

Lemma labels_set_col (c : string) (s : list value) (cs : list (string * list value)) :
  map fst (set_col c s cs)
  = if has_label c (map fst cs) then map fst cs else map fst cs ++ [c].
Proof.
  unfold set_col. destruct (has_label c (map fst cs)).
  - rewrite map_map. apply map_ext. intros [l x]. simpl. by destruct (String.eqb l c).
  - by rewrite map_app.
Qed.

Lemma has_label_set_col (c l : string) (s : list value) (cs : list (string * list value)) :
  l ∈ map fst cs -> l ∈ map fst (set_col c s cs).
Proof.
  rewrite labels_set_col. destruct (has_label c (map fst cs)); [done|].
  intros H. apply elem_of_app. by left.
Qed.

Lemma set_col_label (c : string) (s : list value) (cs : list (string * list value)) :
  c ∈ map fst (set_col c s cs).
Proof.
  rewrite labels_set_col. destruct (has_label c (map fst cs)) eqn:E.
  - by apply has_label_elem.
  - apply elem_of_app. right. left.
Qed.

Lemma find_col_app (c : string) (cs cs' : list (string * list value)) :
  find_col c (cs ++ cs')
  = match find_col c cs with Some s => Some s | None => find_col c cs' end.
Proof.
  induction cs as [|[l x] cs IH]; simpl; [done|]. by destruct (String.eqb l c).
Qed.

Lemma find_col_map_eq (c : string) (f : list value -> list value)
    (cs : list (string * list value)) :
  find_col c (map (fun col => if String.eqb (fst col) c then (fst col, f (snd col)) else col) cs)
  = f <$> find_col c cs.
Proof.
  induction cs as [|[l x] cs IH]; simpl; [done|].
  destruct (String.eqb l c) eqn:E; simpl; rewrite E; [done|apply IH].
Qed.

Lemma find_col_map_ne (c c' : string) (f : list value -> list value)
    (cs : list (string * list value)) :
  c' <> c ->
  find_col c' (map (fun col => if String.eqb (fst col) c then (fst col, f (snd col)) else col) cs)
  = find_col c' cs.
Proof.
  intros Hne. induction cs as [|[l x] cs IH]; simpl; [done|].
  destruct (String.eqb l c) eqn:E; simpl.
  - apply String.eqb_eq in E. subst l.
    destruct (String.eqb c c') eqn:E'; [|done].
    apply String.eqb_eq in E'. congruence.
  - by rewrite IH.
Qed.

Lemma find_col_set_col_eq (c : string) (s : list value) (cs : list (string * list value)) :
  find_col c (set_col c s cs) = Some s.
Proof.
  unfold set_col. destruct (has_label c (map fst cs)) eqn:E.
  - rewrite (find_col_map_eq c (fun _ => s)).
    apply has_label_elem, find_col_is_Some in E as [x ->]. done.
  - rewrite find_col_app. apply has_label_false, find_col_None in E. rewrite E.
    simpl. by rewrite String.eqb_refl.
Qed.

Lemma find_col_set_col_ne (c c' : string) (s : list value) (cs : list (string * list value)) :
  c' <> c -> find_col c' (set_col c s cs) = find_col c' cs.
Proof.
  intros Hne. unfold set_col. destruct (has_label c (map fst cs)).
  - by apply (find_col_map_ne c c' (fun _ => s)).
  - rewrite find_col_app. destruct (find_col c' cs); [done|]. simpl.
    destruct (String.eqb c c') eqn:E; [|done]. apply String.eqb_eq in E. congruence.
Qed.

Lemma NoDup_set_col (c : string) (s : list value) (cs : list (string * list value)) :
  NoDup (map fst cs) -> NoDup (map fst (set_col c s cs)).
Proof.
  intros H. rewrite labels_set_col. destruct (has_label c (map fst cs)) eqn:E; [done|].
  apply NoDup_app. split; [done|]. split.
  - intros x Hx Hc. apply list_elem_of_singleton in Hc. subst.
    apply has_label_false in E. done.
  - apply NoDup_singleton.
Qed.

Lemma NoDup_labels_filter (P : string * list value -> bool)
    (cs : list (string * list value)) :
  NoDup (map fst cs) -> NoDup (map fst (filter (fun col => P col) cs)).
Proof.
  induction cs as [|col cs IH]; [done|]. simpl. intros H.
  apply NoDup_cons in H as [Hout H].
  rewrite filter_cons. destruct (decide (P col)); [|by apply IH].
  simpl. apply NoDup_cons. split; [|by apply IH].
  intros Hin. apply Hout. by apply labels_filter in Hin.
Qed.

(** ** What each transform returns *)

Lemma add_column_run (c : string) (v : scalar) (df : DataFrame) :
  add_column c v df
  = (mkDF (nrows df) (set_col c (repeat (Atom v) (nrows df)) (cols df)),
     Ok (mkDF (nrows df) (set_col c (repeat (Atom v) (nrows df)) (cols df)))).
Proof. reflexivity. Qed.

Lemma getitem_present (c : string) (df : DataFrame) :
  c ∈ labels df -> exists s, find_col c (cols df) = Some s /\ getitem c df = (df, Ok s).
Proof.
  intros H. apply find_col_is_Some in H as [s Hs]. exists s. split; [done|].
  unfold getitem. by rewrite Hs.
Qed.

Lemma getitem_absent (c : string) (df : DataFrame) :
  c ∉ labels df -> getitem c df = (df, Raise (KeyError (Label c))).
Proof.
  intros H. apply find_col_None in H. unfold getitem. by rewrite H.
Qed.

Lemma merge_columns_run (c1 c2 new : string) (drop : bool) (df : DataFrame)
    (a b : list value) :
  find_col c1 (cols df) = Some a -> find_col c2 (cols df) = Some b ->
  let df1 := mkDF (nrows df) (set_col new (merged a b) (cols df)) in
  merge_columns c1 c2 new drop df
  = (df1, if drop then drop_columns [c1; c2] df1 else Ok df1).
Proof.
  intros Ha Hb. unfold merge_columns, mbind, Py_bind, getitem.
  rewrite Ha, Hb. simpl. by destruct drop.
Qed.

Lemma merge_columns_absent (c1 c2 new : string) (drop : bool) (df : DataFrame) :
  c1 ∉ labels df \/ c2 ∉ labels df ->
  exists k, merge_columns c1 c2 new drop df = (df, Raise (KeyError (Label k))).
Proof.
  intros H. unfold merge_columns, mbind, Py_bind.
  destruct (decide (c1 ∈ labels df)) as [H1|H1].
  - destruct H as [H|H]; [done|].
    apply getitem_present in H1 as (a & _ & ->).
    rewrite (getitem_absent c2 df H). eauto.
  - rewrite (getitem_absent c1 df H1). eauto.
Qed.


Lemma conditional_update_run (c : string) (cond new : scalar) (df : DataFrame)
    (s : list value) :
  find_col c (cols df) = Some s ->
  let df1 := mkDF (nrows df)
               (map (fun col => if String.eqb (fst col) c
                                then (fst col, where_set (series_eq s cond) new (snd col))
                                else col) (cols df)) in
  conditional_update c cond new df = (df1, Ok df1).
Proof.
  intros Hs. unfold conditional_update, mbind, Py_bind, getitem. rewrite Hs.
  unfold loc_setitem, mutate, get_data.
  assert (Hin : has_label c (labels df) = true).
  { apply has_label_elem. apply find_col_Some in Hs.
    unfold labels. apply list_elem_of_fmap. by exists (c, s). }
  by rewrite Hin.
Qed.

Lemma conditional_update_absent (c : string) (cond new : scalar) (df : DataFrame) :
  c ∉ labels df -> conditional_update c cond new df = (df, Raise (KeyError (Label c))).
Proof.
  intros H. unfold conditional_update, mbind, Py_bind. by rewrite (getitem_absent c df H).
Qed.

(** Membership in a list of labels that is written out. *)
Ltac label_in := repeat constructor.
Ltac label_out :=
  let H := fresh in
  intros H;
  repeat (apply elem_of_cons in H as [H|H]; [discriminate H|]);
  apply elem_of_nil in H; exact H.
Ltac labels_nodup :=
  repeat (apply NoDup_cons; split; [label_out|]); apply NoDup_nil_2.

(** ** Unique labels *)

Lemma NoDup_rename (old new : string) (ls : list string) :
  NoDup ls -> ~ (old ∈ ls /\ new ∈ ls /\ new <> old) ->
  NoDup (map (fun l => if String.eqb l old then new else l) ls).
Proof.
  intros Hnd Hfree.
  apply (NoDup_fmap_2_strong (fun l => if String.eqb l old then new else l)); [|done].
  intros x y Hx Hy. cbv beta.
  destruct (String.eqb x old) eqn:Ex, (String.eqb y old) eqn:Ey.
  - apply String.eqb_eq in Ex, Ey. congruence.
  - apply String.eqb_eq in Ex. apply String.eqb_neq in Ey. subst x.
    intros <-. exfalso. apply Hfree. repeat split; [done|done|congruence].
  - apply String.eqb_eq in Ey. apply String.eqb_neq in Ex. subst y.
    intros ->. exfalso. apply Hfree. repeat split; [done|done|congruence].
  - done.
Qed.

Lemma elem_of_rename (old new : string) (ls : list string) :
  old ∈ ls -> new ∈ map (fun l => if String.eqb l old then new else l) ls.
Proof.
  intros H. apply list_elem_of_fmap. exists old. by rewrite String.eqb_refl.
Qed.

Lemma labels_loc_update (c : string) (f : list value -> list value)
    (cs : list (string * list value)) :
  map fst (map (fun col => if String.eqb (fst col) c then (fst col, f (snd col)) else col) cs)
  = map fst cs.
Proof.
  rewrite map_map. apply map_ext. intros [l x]. simpl. by destruct (String.eqb l c).
Qed.

Lemma fmap_inj_on_NoDup {A B} (f : A -> B) (l : list A) (x y : A) :
  NoDup (map f l) -> x ∈ l -> y ∈ l -> f x = f y -> x = y.
Proof.
  induction l as [|a l IH]; simpl; [by intros _ ?%elem_of_nil|].
  intros Hnd Hx Hy Hf. apply NoDup_cons in Hnd as [Ha Hnd].
  apply elem_of_cons in Hx as [->|Hx], Hy as [->|Hy]; [done| | |by apply IH].
  - exfalso. apply Ha. rewrite Hf. change (map f l) with (f <$> l).
    by apply list_elem_of_fmap_2.
  - exfalso. apply Ha. rewrite <- Hf. change (map f l) with (f <$> l).
    by apply list_elem_of_fmap_2.
Qed.

Lemma rename_collision_duplicates (old new : string) (ls : list string) :
  old ∈ ls -> new ∈ ls -> new <> old ->
  ~ NoDup (map (fun l => if String.eqb l old then new else l) ls).
Proof.
  intros Hold Hnew Hne Hnd. apply Hne.
  apply (fmap_inj_on_NoDup _ ls new old Hnd Hnew Hold).
  rewrite String.eqb_refl. destruct (String.eqb new old) eqn:E; [|done].
  by apply String.eqb_eq in E.
Qed.

(** C2, as the code has it: on a table whose labels are unique, a
    transform that returns leaves unique labels in the table it was given,
    and in the table it returns exactly when it is not a rename onto the
    label of another column; a rename of an existing column moves the label
    and keeps every cell, overwriting nothing. *)
Theorem transforms_keep_labels_unique (t : transform) (df object df' : DataFrame) :
  unique_labels df ->
  apply_transform t df = (object, Ok df') ->
  unique_labels object
  /\ (unique_labels df' <-> ~ rename_collides t df)
  /\ (forall old new, t = RenameColumn old new -> old ∈ labels df ->
        new ∈ labels df' /\ map snd (cols df') = map snd (cols df)).
Proof.
  unfold unique_labels, labels. intros Hnd Hrun.
  destruct t as [c v|c1 c2 new drop|names|old new|c cond new]; simpl in *.
  - rewrite add_column_run in Hrun. injection Hrun as <- <-. simpl.
    split; [by apply NoDup_set_col|]. split; [|done].
    split; [tauto|]. intros _. by apply NoDup_set_col.
  - destruct (decide (c1 ∈ labels df)) as [H1|H1];
      [destruct (decide (c2 ∈ labels df)) as [H2|H2]|].
    + destruct (find_col_is_Some _ _ H1) as [a Ha], (find_col_is_Some _ _ H2) as [b Hb].
      rewrite (merge_columns_run c1 c2 new drop df a b Ha Hb) in Hrun. simpl in Hrun.
      injection Hrun as <- Hres. simpl. split; [by apply NoDup_set_col|].
      split; [|done]. split; [tauto|]. intros _. destruct drop.
      * unfold drop_columns in Hres. destruct (filter _ [c1; c2]); [|done].
        injection Hres as <-. simpl. by apply NoDup_labels_filter, NoDup_set_col.
      * injection Hres as <-. by apply NoDup_set_col.
    + destruct (merge_columns_absent c1 c2 new drop df (or_intror H2)) as [k Hk]. congruence.
    + destruct (merge_columns_absent c1 c2 new drop df (or_introl H1)) as [k Hk]. congruence.
  - unfold remove_columns, mbind, Py_bind, get_data, lift in Hrun.
    injection Hrun as <- Hres. split; [done|]. split; [|done].
    split; [tauto|]. intros _.
    unfold drop_columns in Hres. destruct (filter _ names); [|done].
    injection Hres as <-. simpl. by apply NoDup_labels_filter.
  - rewrite rename_column_run in Hrun. injection Hrun as <- <-.
    split; [done|]. fold (labels (rename_columns old new df)). rewrite labels_rename.
    split.
    + split; [|by apply NoDup_rename].
      intros Hnd' (Hold & Hnew & Hne). by apply (rename_collision_duplicates old new (labels df)).
    + intros old' new' [= <- <-] Hold. split; [by apply elem_of_rename | apply values_rename].
  - destruct (decide (c ∈ labels df)) as [Hc|Hc].
    + destruct (find_col_is_Some _ _ Hc) as [s Hs].
      rewrite (conditional_update_run c cond new df s Hs) in Hrun. simpl in Hrun.
      injection Hrun as <- <-. simpl.
      rewrite (labels_loc_update c (where_set (series_eq s cond) new)).
      split; [done|]. split; [tauto|done].
    + rewrite (conditional_update_absent c cond new df Hc) in Hrun. done.
Qed.

(** C2 as the specification states it fails: renaming onto an existing
    column overwrites nothing; the table then has two columns of that
    label. *)
Lemma rename_onto_existing_duplicates :
  exists df',
    rename_column "a" "b" table_ab = (table_ab, Ok df')
    /\ labels df' = ["b"; "b"]
    /\ ~ unique_labels df'.
Proof.
  eexists. split; [reflexivity|]. split; [reflexivity|].
  unfold unique_labels. simpl. intros H. apply NoDup_cons in H as [H _].
  apply H. left.
Qed.

Lemma transforms_keep_labels_unique_witness :
  exists object df',
    apply_transform (RenameColumn "a" "c") table_ab = (object, Ok df')
    /\ unique_labels object /\ unique_labels df' /\ "c" ∈ labels df'.
Proof.
  assert (Hnd : unique_labels table_ab) by (unfold unique_labels; simpl; labels_nodup).
  assert (Hfree : ~ rename_collides (RenameColumn "a" "c") table_ab).
  { simpl. intros (_ & H & _). revert H. label_out. }
  eexists _, _. split; [reflexivity|].
  destruct (transforms_keep_labels_unique (RenameColumn "a" "c") table_ab _ _
              Hnd eq_refl) as (Ho & Hu & Hr).
  split; [exact Ho|]. split; [by apply Hu|].
  apply (Hr "a" "c" eq_refl). simpl. label_in.
Defined.

(** ** [conditional_update] *)





(** ** Failure leaves the table as it was *)

Lemma drop_columns_raise (names : list string) (df : DataFrame) (e : exn) :
  drop_columns names df = Raise e -> exists k, e = KeyError k.
Proof.
  unfold drop_columns. destruct (filter _ names) as [|m ms]; [done|].
  intros [= <-]. by eexists.
Qed.

Lemma raise_leaves_table (t : transform) (df object : DataFrame) (e : exn) :
  apply_transform t df = (object, Raise e) ->
  object = df /\ exists k, e = KeyError k.
Proof.
  destruct t as [c v|c1 c2 new drop|names|old new|c cond new]; simpl.
  - by rewrite add_column_run.
  - destruct (decide (c1 ∈ labels df)) as [H1|H1];
      [destruct (decide (c2 ∈ labels df)) as [H2|H2]|].
    + destruct (find_col_is_Some _ _ H1) as [a Ha], (find_col_is_Some _ _ H2) as [b Hb].
      rewrite (merge_columns_run c1 c2 new drop df a b Ha Hb). simpl.
      destruct drop; [|done].
      rewrite drop_columns_present; [done|].
      repeat constructor; unfold labels; simpl; by apply has_label_set_col.
    + destruct (merge_columns_absent c1 c2 new drop df (or_intror H2)) as [k ->].
      intros [= <- <-]. split; [done|]. by eexists.
    + destruct (merge_columns_absent c1 c2 new drop df (or_introl H1)) as [k ->].
      intros [= <- <-]. split; [done|]. by eexists.
  - unfold remove_columns, mbind, Py_bind, get_data, lift.
    intros [= <- H]. split; [done|]. by apply drop_columns_raise in H.
  - by rewrite rename_column_run.
  - destruct (decide (c ∈ labels df)) as [Hc|Hc].
    + destruct (find_col_is_Some _ _ Hc) as [s Hs].
      by rewrite (conditional_update_run c cond new df s Hs).
    + rewrite (conditional_update_absent c cond new df Hc).
      intros [= <- <-]. split; [done|]. by eexists.
Qed.

Lemma missing_column_raises (t : transform) (df : DataFrame) :
  names_missing_column t df ->
  exists k, apply_transform t df = (df, Raise (KeyError k)).
Proof.
  destruct t as [c v|c1 c2 new drop|names|old new|c cond new]; simpl; try done.
  - intros H. destruct (merge_columns_absent c1 c2 new drop df H) as [k ->]. eauto.
  - intros (n & Hn & Hout).
    destruct (drop_columns_missing names df n Hn Hout) as (m & _ & E).
    exists (NotInAxis m). unfold remove_columns, mbind, Py_bind, get_data, lift.
    by rewrite E.
  - intros H. rewrite (conditional_update_absent c cond new df H). eauto.
Qed.

Lemma commit_unsuccessful (t : transform) (msg : string) (df session' : DataFrame)
    (fb : feedback) :
  commit (apply_transform t) msg df = (session', fb) ->
  is_success fb = false -> session' = df.
Proof.
  unfold commit. destruct (apply_transform t df) as [object [data|e]] eqn:E.
  - by intros [= <- <-].
  - intros [= <- <-] _. by apply raise_leaves_table in E as [-> _].
Qed.

Lemma press_unsuccessful (b : button) (df session' : DataFrame) (fb : feedback) :
  press b df = (session', fb) -> is_success fb = false -> session' = df.
Proof.
  destruct b as [n d|[a|] [b|] n d|names|[old|] new|[c|] m n]; simpl;
    unfold add_column_button, merge_columns_button, remove_columns_button,
      rename_column_button, update_button;
    try (by intros [= <- <-]).
  - destruct (truthy n); [|by intros [= <- <-]].
    apply (commit_unsuccessful (AddColumn n (SStr d))).
  - destruct (truthy a && truthy b && truthy n); [|by intros [= <- <-]].
    apply (commit_unsuccessful (MergeColumns a b n d)).
  - destruct names as [|x names]; [by intros [= <- <-]|].
    apply (commit_unsuccessful (RemoveColumns (x :: names))).
  - destruct (truthy old && truthy new); [|by intros [= <- <-]].
    apply (commit_unsuccessful (RenameColumn old new)).
  - destruct (truthy c && truthy m && truthy n); [|by intros [= <- <-]].
    apply (commit_unsuccessful (ConditionalUpdate c (SStr m) (SStr n))).
Qed.

(** C1, as the code has it: a transform that raises leaves the table it
    was given exactly as it was, and what it raises is a KeyError;
    [merge_columns], [remove_columns] and [conditional_update] raise when a
    named column is missing.  [add_column] and [rename_column] never raise:
    the empty name is refused by the sidebar, which reports it and calls
    nothing, and whenever a button does not report success the table of the
    session is the one from before. *)
Theorem failed_transform_leaves_table (t : transform) (df : DataFrame) :
  unique_labels df ->
  (forall object e, apply_transform t df = (object, Raise e) ->
     object = df /\ exists k, e = KeyError k)
  /\ (names_missing_column t df ->
        exists k, apply_transform t df = (df, Raise (KeyError k)))
  /\ (forall name v, exists df', add_column name v df = (df', Ok df'))
  /\ (forall old new, exists df',
        rename_column old new df = (df, Ok df') /\ (old ∉ labels df -> df' = df))
  /\ (forall b session' fb,
        press b df = (session', fb) -> is_success fb = false -> session' = df)
  /\ (forall d, press (AddColumnButton "" d) df = (df, Error "Column name cannot be empty"))
  /\ (forall a b d, exists msg, press (MergeColumnsButton a b "" d) df = (df, Error msg))
  /\ (exists msg, press (RemoveColumnsButton []) df = (df, Error msg))
  /\ (forall old, exists msg, press (RenameColumnButton old "") df = (df, Error msg))
  /\ (forall c n, exists msg, press (UpdateButton c "" n) df = (df, Error msg))
  /\ (forall c m, exists msg, press (UpdateButton c m "") df = (df, Error msg)).
Proof.
  intros _. split; [intros object e; apply raise_leaves_table|].
  split; [apply missing_column_raises|].
  split; [intros name v; eexists; apply add_column_run|].
  split.
  { intros old new. eexists. split; [apply rename_column_run|]. apply rename_missing. }
  split; [intros b s fb; apply press_unsuccessful|].
  split; [done|]. split.
  { intros [a|] [b|] d; simpl; unfold merge_columns_button; eauto.
    destruct (truthy a), (truthy b); simpl; eauto. }
  split; [simpl; eauto|]. split.
  { intros [old|]; simpl; unfold rename_column_button; eauto.
    destruct (truthy old); simpl; eauto. }
  split.
  - intros [c|] n; simpl; unfold update_button; eauto.
    destruct (truthy c); simpl; eauto.
  - intros [c|] m; simpl; unfold update_button; eauto.
    destruct (truthy c), (truthy m); simpl; eauto.
Qed.

(** C1 as the specification states it fails: [add_column] takes the empty
    name and adds a column of that label, and [rename_column] of a column
    that is not there returns the table without any error. *)
Lemma empty_name_and_missing_column_accepted :
  (exists df',
     add_column "" (SStr "v") table_ab = (df', Ok df')
     /\ labels df' = ["a"; "b"; ""]
     /\ df' <> table_ab)
  /\ ("zip" ∉ labels table_ab)
  /\ rename_column "zip" "code" table_ab = (table_ab, Ok table_ab).
Proof.
  split; [|split].
  - eexists. split; [reflexivity|]. split; [reflexivity|]. discriminate.
  - simpl. label_out.
  - reflexivity.
Qed.

Lemma failed_transform_leaves_table_witness :
  exists k,
    apply_transform (MergeColumns "a" "zip" "c" true) table_ab
    = (table_ab, Raise (KeyError k)).
Proof.
  assert (Hnd : unique_labels table_ab) by (unfold unique_labels; simpl; labels_nodup).
  destruct (failed_transform_leaves_table (MergeColumns "a" "zip" "c" true) table_ab Hnd)
    as (_ & Hmiss & _).
  apply Hmiss. simpl. right. label_out.
Defined.

(** ** [add_column] *)

(** [add_column] leaves in place, and returns, the table in which the named
    column holds the default in every row: a column of that name is
    overwritten where it stands, a new one comes last; every other column
    and the row count are as before. *)
Lemma add_column_spec (name : string) (v : scalar) (df : DataFrame) :
  unique_labels df ->
  exists df',
    add_column name v df = (df', Ok df')
    /\ nrows df' = nrows df
    /\ find_col name (cols df') = Some (repeat (Atom v) (nrows df))
    /\ (forall c, c <> name -> find_col c (cols df') = find_col c (cols df))
    /\ (name ∈ labels df -> labels df' = labels df)
    /\ (name ∉ labels df -> labels df' = labels df ++ [name])
    /\ unique_labels df'.
Proof.
  intros Hnd. eexists. split; [apply add_column_run|]. split; [done|].
  split; [apply find_col_set_col_eq|].
  split; [intros c Hc; by apply find_col_set_col_ne|].
  unfold labels, unique_labels. simpl.
  split; [|split].
  - intros H. rewrite labels_set_col. apply has_label_elem in H. by rewrite H.
  - intros H. rewrite labels_set_col. apply has_label_false in H. by rewrite H.
  - by apply NoDup_set_col.
Qed.

Lemma add_column_spec_witness :
  exists df',
    add_column "active" (SStr "true") table_people = (df', Ok df')
    /\ find_col "active" (cols df') = Some [VStr "true"; VStr "true"]
    /\ labels df' = ["name"; "age"; "active"].
Proof.
  assert (Hnd : unique_labels table_people) by (unfold unique_labels; simpl; labels_nodup).
  destruct (add_column_spec "active" (SStr "true") table_people Hnd)
    as (df' & Hrun & _ & Hcol & _ & _ & Hnew & _).
  exists df'. split; [exact Hrun|]. split; [exact Hcol|].
  apply Hnew. simpl. label_out.
Defined.

(** ** [merge_columns] *)





(** C3 where the code departs from it: merging into [col1] with
    [drop_originals] writes the merged column and then drops it with the
    originals; the table returned has neither, and the sidebar reports
    success. *)
Lemma merge_into_source_column_drops_result :
  merge_columns "a" "b" "a" true table_ab
  = (mkDF 2 [("a", [VStr "xy"; VStr "1nan"]); ("b", [VStr "y"; NaN])], Ok (mkDF 2 []))
  /\ press (MergeColumnsButton (Some "a") (Some "b") "a" true) table_ab
     = (mkDF 2 [], Success "Columns 'a' and 'b' merged into 'a'").
Proof. split; reflexivity. Qed.

(** ** [save_data] *)

Lemma zip_star_no_rows (arrays : list (list value)) :
  Forall (fun a => length a = 0%nat) arrays -> zip_star arrays = [].
Proof.
  intros H. destruct H as [|a arrays Ha H]; [done|].
  apply nil_length_inv in Ha. subst a. simpl. by destruct arrays.
Qed.

Lemma to_dict_records_no_rows (df : DataFrame) :
  wf df -> nrows df = 0%nat -> to_dict_records df = [].
Proof.
  unfold wf, to_dict_records. intros Hwf H0. rewrite zip_star_no_rows; [done|].
  rewrite H0 in Hwf. change (map snd (cols df)) with (snd <$> cols df).
  by apply Forall_fmap.
Qed.

Lemma find_delete_many (client : MongoClient) (db_name collection_name : string) :
  find (delete_many client db_name collection_name) db_name collection_name = [].
Proof. unfold find, delete_many. simpl. by rewrite lookup_insert_eq. Qed.

Lemma save_data_collection (client : MongoClient) (db_name collection_name : string)
    (df : DataFrame) :
  find (fst (save_data client db_name collection_name df)) db_name collection_name
  = fst (assign_ids (next_oid client) (to_dict_records df)).
Proof.
  unfold save_data, insert_many.
  destruct (to_dict_records df) as [|r rs] eqn:E.
  - simpl. apply find_delete_many.
  - rewrite find_delete_many. simpl next_oid.
    destruct (assign_ids (next_oid client) (r :: rs)) as [stored n]. simpl.
    unfold find. simpl. by rewrite lookup_insert_eq.
Qed.

(** C10: [save_data] empties the collection before it inserts, whatever the
    table: afterwards the collection holds the rows of the table and nothing
    of what it held before.  For a table without rows the insert raises
    after the delete was done: the call ends in that TypeError, the
    collection is left empty, and the sidebar shows the exception. *)
Theorem save_data_empty_table (client : MongoClient) (db_name collection_name : string)
    (df : DataFrame) :
  wf df -> nrows df = 0%nat ->
  save_data client db_name collection_name df
  = (delete_many client db_name collection_name,
     Raise (TypeError "documents must be a non-empty list"))
  /\ find (fst (save_data client db_name collection_name df)) db_name collection_name = []
  /\ snd (save_data_button client db_name collection_name df)
     = Uncaught (TypeError "documents must be a non-empty list")
  /\ (forall other : DataFrame,
        find (fst (save_data client db_name collection_name other)) db_name collection_name
        = fst (assign_ids (next_oid client) (to_dict_records other))).
Proof.
  intros Hwf H0.
  assert (E : save_data client db_name collection_name df
              = (delete_many client db_name collection_name,
                 Raise (TypeError "documents must be a non-empty list"))).
  { unfold save_data. by rewrite (to_dict_records_no_rows df Hwf H0). }
  split; [exact E|]. split.
  { rewrite E. apply find_delete_many. }
  split.
  { unfold save_data_button. by rewrite E. }
  intros other. apply save_data_collection.
Qed.

Lemma save_data_empty_table_witness :
  find (client_of docs_people) "shop" "people" = docs_people
  /\ find (fst (save_data (client_of docs_people) "shop" "people" empty_table))
       "shop" "people" = [].
Proof.
  split; [reflexivity|].
  apply (save_data_empty_table (client_of docs_people) "shop" "people" empty_table).
  - repeat constructor.
  - reflexivity.
Defined.

(** ** [execute_sql_query] *)

Section Query.
Context `{SqlEngine}.

(** C5: when the engine rejects the query, [execute_sql_query] raises the
    engine's exception with its diagnostic; the [except] clause of the
    sidebar turns it into an error message that carries the diagnostic, and
    the table of the session is the one from before. *)
Theorem invalid_query_leaves_table (df : DataFrame) (query diagnostic : string) :
  query <> "" ->
  sqldf query (serialize_dataframe df) = inl diagnostic ->
  execute_sql_query df query = Raise (PandaSQLException diagnostic)
  /\ execute_sql_button query df
     = (df, Error ("Error executing SQL query: " +:+ diagnostic)).
Proof.
  intros Hq Hfail.
  assert (E : execute_sql_query df query = Raise (PandaSQLException diagnostic)).
  { unfold execute_sql_query. by rewrite Hfail. }
  split; [exact E|].
  unfold execute_sql_button, truthy.
  destruct (String.eqb query "") eqn:Eq; [by apply String.eqb_eq in Eq|].
  simpl. by rewrite E.
Qed.

End Query.

Lemma invalid_query_leaves_table_witness :
  @execute_sql_button select_all_engine "SELEKT name" table_people
  = (table_people, Error "Error executing SQL query: near SELEKT name: syntax error").
Proof.
  apply (@invalid_query_leaves_table select_all_engine table_people "SELEKT name"
           "near SELEKT name: syntax error").
  - discriminate.
  - reflexivity.
Defined.

(** ** [load_data] and the way back *)

Lemma first_seen_stream (docs : list document) (seen : list string) :
  fold_left (fun seen d => fold_left see (map fst d) seen) docs seen
  = fold_left see (key_stream docs) seen.
Proof.
  revert seen. induction docs as [|d docs IH]; intros seen; simpl; [done|].
  unfold key_stream. simpl. rewrite fold_left_app. apply IH.
Qed.

Lemma filter_seen (seen : list string) (k : string) (l : list string) :
  k ∈ seen ->
  filter (fun x => negb (has_label x seen)) (filter (fun x => negb (String.eqb x k)) l)
  = filter (fun x => negb (has_label x seen)) l.
Proof.
  intros Hk. rewrite list_filter_filter. apply list_filter_iff. intros x. split; [tauto|].
  intros H. split; [done|].
  destruct (String.eqb x k) eqn:E; [|done].
  apply String.eqb_eq in E. subst x. apply has_label_elem in Hk. by rewrite Hk in H.
Qed.

Lemma filter_seen_more (seen : list string) (k : string) (l : list string) :
  filter (fun x => negb (has_label x (seen ++ [k]))) l
  = filter (fun x => negb (has_label x seen)) (filter (fun x => negb (String.eqb x k)) l).
Proof.
  rewrite list_filter_filter. apply list_filter_iff. intros x.
  unfold has_label. rewrite existsb_app. simpl. rewrite orb_false_r.
  destruct (existsb (String.eqb x) seen), (String.eqb x k); simpl; tauto.
Qed.

Lemma fold_see (stream seen : list string) :
  fold_left see stream seen
  = seen ++ filter (fun k => negb (has_label k seen)) (first_occurrences stream).
Proof.
  revert seen. induction stream as [|k stream IH]; intros seen; simpl.
  - by rewrite app_nil_r.
  - rewrite IH. unfold see. destruct (has_label k seen) eqn:E.
    + rewrite filter_cons_False by (rewrite E; by intros []).
      by rewrite filter_seen by (by apply has_label_elem).
    + rewrite filter_cons_True by (by rewrite E).
      rewrite <- app_assoc. simpl. by rewrite filter_seen_more.
Qed.

Lemma filter_keeps_all {A} (P : A -> bool) (l : list A) :
  (forall x, x ∈ l -> P x = true) -> filter (fun x => P x) l = l.
Proof.
  induction l as [|x l IH]; intros H; [done|].
  rewrite filter_cons_True by (rewrite H; [done|left]).
  rewrite IH; [done|]. intros y Hy. apply H. by right.
Qed.

Lemma first_seen_first_occurrences (docs : list document) :
  first_seen docs = first_occurrences (key_stream docs).
Proof.
  unfold first_seen. etrans; [apply (first_seen_stream docs [])|]. rewrite fold_see. simpl.
  by apply (filter_keeps_all (fun k => negb (has_label k []))).
Qed.

Lemma elem_of_first_occurrences (k : string) (stream : list string) :
  k ∈ first_occurrences stream <-> k ∈ stream.
Proof.
  induction stream as [|x stream IH]; simpl; [done|].
  rewrite !elem_of_cons, list_elem_of_filter, IH.
  destruct (String.eqb k x) eqn:E.
  - apply String.eqb_eq in E. subst. simpl. tauto.
  - apply String.eqb_neq in E. simpl. tauto.
Qed.

Lemma NoDup_first_occurrences (stream : list string) :
  NoDup (first_occurrences stream).
Proof.
  induction stream as [|x stream IH]; simpl; [apply NoDup_nil_2|].
  apply NoDup_cons. split; [|by apply NoDup_filter].
  intros H. apply list_elem_of_filter in H as [H _]. by rewrite String.eqb_refl in H.
Qed.

Lemma elem_of_key_stream (k : string) (docs : list document) :
  k ∈ key_stream docs <-> exists d, d ∈ docs /\ k ∈ map fst d.
Proof.
  unfold key_stream. induction docs as [|d docs IH]; simpl.
  - split; [by intros ?%elem_of_nil | by intros (d & ?%elem_of_nil & _)].
  - rewrite elem_of_app, IH. split.
    + intros [H|(d' & H & Hk)]; [exists d; split; [left|done] | exists d'; split; [by right|done]].
    + intros (d' & [->|H]%elem_of_cons & Hk); [by left | right; eauto].
Qed.

Lemma filter_columns {B} (P : string -> bool) (f : string -> B) (ks : list string) :
  filter (fun col : string * B => P (fst col)) (map (fun k => (k, f k)) ks)
  = map (fun k => (k, f k)) (filter (fun k => P k) ks).
Proof.
  induction ks as [|k ks IH]; [done|]. simpl. rewrite !filter_cons. simpl.
  destruct (P k); simpl; by rewrite IH.
Qed.

Lemma labels_columns' {B} (f : string -> B) (ks : list string) :
  map fst (map (fun k => (k, f k)) ks) = ks.
Proof. rewrite map_map. simpl. apply map_id. Qed.

Lemma labels_columns (f : string -> list value) (ks : list string) :
  map fst (map (fun k => (k, f k)) ks) = ks.
Proof. apply labels_columns'. Qed.

(** The frame [load_data] returns, column by column. *)
Lemma load_data_run (client : MongoClient) (db_name collection_name : string) :
  let docs := find client db_name collection_name in
  load_data client db_name collection_name
  = Ok (mkFrame (length docs)
          (map (fun k => (k, maybe_convert_objects true (column_of docs k)))
               (filter (fun k => not_id k) (first_occurrences (key_stream docs))))).
Proof.
  intros docs. unfold load_data. fold docs.
  unfold DataFrame_of_records. rewrite first_seen_first_occurrences.
  fold (column_of docs). cbn [columns index]. rewrite labels_columns'.
  set (ks := first_occurrences (key_stream docs)).
  destruct (has_label "_id" ks) eqn:E.
  - unfold drop_frame_columns. cbn [columns index]. rewrite labels_columns'.
    rewrite filter_cons_False by (rewrite E; simpl; tauto). rewrite filter_nil.
    f_equal. f_equal.
    etrans;
      [apply (filter_columns (fun k => negb (has_label k ["_id"]))
                (fun k => maybe_convert_objects true (column_of docs k)) ks)|].
    f_equal. apply list_filter_iff. intros k. unfold not_id, has_label. simpl.
    by rewrite orb_false_r.
  - f_equal. f_equal. f_equal. symmetry. apply (filter_keeps_all not_id).
    intros k Hk. unfold not_id. destruct (String.eqb k "_id") eqn:Ek; [|done].
    apply String.eqb_eq in Ek. subst k. apply has_label_false in E. done.
Qed.

Lemma zip_with_cons_columns {A} (f : A -> value) (g : A -> list value) (l : list A) :
  zip_with cons (map f l) (map g l) = map (fun d => f d :: g d) l.
Proof. induction l as [|x l IH]; simpl; [done|]. by rewrite IH. Qed.

Lemma zip_star_columns (g : string -> document -> value) (docs : list document)
    (ks : list string) :
  ks <> [] ->
  zip_star (map (fun k => map (g k) docs) ks)
  = map (fun d => map (fun k => g k d) ks) docs.
Proof.
  induction ks as [|k ks IH]; [done|]. intros _.
  destruct ks as [|k' ks].
  - simpl. rewrite map_map. done.
  - change (zip_star (map (fun k => map (g k) docs) (k :: k' :: ks)))
      with (zip_with cons (map (g k) docs)
              (zip_star (map (fun k => map (g k) docs) (k' :: ks)))).
    rewrite IH by done. apply zip_with_cons_columns.
Qed.

Lemma dict_set_fresh (k : string) (v : value) (d : document) :
  k ∉ map fst d -> dict_set k v d = d ++ [(k, v)].
Proof.
  induction d as [|[k' v'] d IH]; simpl; [done|].
  intros H. apply not_elem_of_cons in H as [Hne H].
  destruct (String.eqb k' k) eqn:E.
  - apply String.eqb_eq in E. congruence.
  - by rewrite IH.
Qed.

Lemma dict_of_fresh (pairs acc : list (string * value)) :
  NoDup (map fst (acc ++ pairs)) ->
  fold_left (fun d kv => dict_set (fst kv) (snd kv) d) pairs acc = acc ++ pairs.
Proof.
  revert acc. induction pairs as [|[k v] pairs IH]; intros acc H; simpl.
  - by rewrite app_nil_r.
  - rewrite dict_set_fresh.
    + rewrite IH; rewrite <- app_assoc; done.
    + rewrite map_app in H. apply NoDup_app in H as (_ & H & _).
      intros Hk. apply (H k Hk). left.
Qed.

Lemma dict_of_unique (pairs : list (string * value)) :
  NoDup (map fst pairs) -> dict_of pairs = pairs.
Proof. intros H. unfold dict_of. by rewrite dict_of_fresh. Qed.

Lemma zip_keys (f : string -> value) (ks : list string) :
  zip ks (map f ks) = map (fun k => (k, f k)) ks.
Proof. induction ks as [|k ks IH]; simpl; [done|]. by rewrite IH. Qed.

Lemma dict_of_row (f : string -> value) (ks : list string) :
  NoDup ks -> dict_of (zip ks (map f ks)) = map (fun k => (k, f k)) ks.
Proof.
  intros H. rewrite zip_keys. apply dict_of_unique. by rewrite (labels_columns' f ks).
Qed.



Lemma kept_columns_map (g : string -> column) (f : string -> list value) (ks : list string) :
  Forall (fun k => g k = Kept (f k)) ks ->
  kept_columns (map (fun k => (k, g k)) ks) = Some (map (fun k => (k, f k)) ks).
Proof.
  induction 1 as [|k ks Hk _ IH]; [done|]. simpl. by rewrite Hk, IH.
Qed.

Lemma existsb_excluded {A} (P Q : A -> bool) (l : list A) :
  forallb P l = true -> (forall v, P v = true -> Q v = false) -> existsb Q l = false.
Proof.
  intros Hall HPQ. induction l as [|v l IH]; [done|].
  simpl in *. apply andb_true_iff in Hall as [Hv Hl]. by rewrite (HPQ v Hv), IH.
Qed.

(** A column of ints in which a cell is missing is made a float64 column. *)
Lemma ints_and_nulls_float64 (convert_non_numeric : bool) (cells : list value) :
  ints_and_nulls cells = true ->
  maybe_convert_objects convert_non_numeric cells = Float64 cells.
Proof.
  unfold ints_and_nulls. intros H.
  apply andb_true_iff in H as [H Hnull]. apply andb_true_iff in H as [Hall Hint].
  unfold maybe_convert_objects.
  rewrite (existsb_excluded _ beyond_int64 cells Hall)
    by (intros [[]| |]; simpl; try done; by destruct (int64 _)).
  rewrite (existsb_excluded _ beyond_datetime64 cells Hall) by (by intros [[]| |]).
  rewrite (existsb_excluded _ is_object cells Hall) by (by intros [[]| |]).
  rewrite (existsb_excluded _ is_datetime cells Hall) by (by intros [[]| |]).
  rewrite (existsb_excluded _ is_bool cells Hall) by (by intros [[]| |]).
  rewrite Hint, Hnull. by destruct convert_non_numeric.
Qed.



(** It fails for field values as well: an int beside a document that lacks
    the field is not kept, its column is float64. *)
Example int_beside_missing_field_becomes_float :
  load_data (client_of docs_people) "shop" "people"
  = Ok (mkFrame 2 [("name", Kept [VStr "Ann"; VStr "Bo"]);
                   ("tags", Kept [VList [VStr "x"; VStr "y"]; NaN]);
                   ("age", Float64 [NaN; Atom (SInt 41)])]).
Proof. reflexivity. Qed.


Example load_data_notes :
  load_data (client_of docs_notes) "shop" "people"
  = Ok (mkFrame 2 [("title", Kept [VStr "todo"; VStr "list"]);
                   ("tags", Kept [VList [VStr "x"; VStr "y"]; NaN]);
                   ("done", Kept [NaN; Atom (SBool true)])]).
Proof. reflexivity. Qed.

(** ** Text *)

Lemma append_String (c : ascii) (a b : string) : String c a +:+ b = String c (a +:+ b).
Proof. reflexivity. Qed.

Lemma append_empty (b : string) : "" +:+ b = b.
Proof. reflexivity. Qed.

Lemma append_assoc (a b c : string) : (a +:+ b) +:+ c = a +:+ (b +:+ c).
Proof.
  induction a as [|x a IH]; [done|]. rewrite !append_String. by f_equal.
Qed.

Lemma append_nil_r (a : string) : a +:+ "" = a.
Proof. induction a as [|x a IH]; [done|]. rewrite append_String. by f_equal. Qed.

Lemma length_append (a b : string) :
  String.length (a +:+ b) = (String.length a + String.length b)%nat.
Proof.
  induction a as [|x a IH]; [done|]. rewrite append_String. simpl. by rewrite IH.
Qed.

Create Rewrite HintDb text.
#[local] Hint Rewrite append_String append_empty append_assoc : text.

(** ** Strings through [py_encode_basestring_ascii] and [py_scanstring] *)

Lemma scan_escape_char (c : ascii) (rest : string) :
  scan_string (escape_char c +:+ rest) = prepend (ord c) (scan_string rest).
Proof.
  destruct c as [[] [] [] [] [] [] [] []]; reflexivity.
Qed.

Lemma scan_escape_chars (s rest : string) :
  scan_string (escape_chars s +:+ String dquote rest) = Some (codepoints s, rest).
Proof.
  induction s as [|c s IH]; [done|].
  simpl escape_chars. rewrite append_assoc, scan_escape_char, IH. done.
Qed.

Lemma scan_encoded_string (s rest : string) :
  exists body,
    encode_basestring_ascii s +:+ rest = String dquote body
    /\ scan_string body = Some (codepoints s, rest).
Proof.
  exists (escape_chars s +:+ String dquote rest). split.
  - unfold encode_basestring_ascii, str1. by autorewrite with text.
  - apply scan_escape_chars.
Qed.

(** ** Integers through [str] and NUMBER_RE *)

Lemma span_digits_stop (rest : string) :
  ends_value rest = true -> span_digits rest = ("", rest).
Proof.
  destruct rest as [|c rest]; [done|]. simpl. intros H.
  destruct (Ascii.eqb c ",") eqn:E1; [apply Ascii.eqb_eq in E1; by subst|].
  destruct (Ascii.eqb c "]") eqn:E2; [apply Ascii.eqb_eq in E2; by subst|].
  destruct (Ascii.eqb c "}") eqn:E3; [apply Ascii.eqb_eq in E3; by subst|].
  done.
Qed.

Lemma span_digits_uint (d : uint) (rest : string) :
  ends_value rest = true ->
  span_digits (NilEmpty.string_of_uint d +:+ rest) = (NilEmpty.string_of_uint d, rest).
Proof.
  intros H. induction d; simpl NilEmpty.string_of_uint;
    rewrite ?append_String, ?append_empty;
    [by apply span_digits_stop|..];
    simpl; by rewrite IHd.
Qed.

Lemma N_of_digits_str_N (n : N) : N_of_digits (str_N n) = n.
Proof.
  unfold N_of_digits, str_N. rewrite NilEmpty.usu. apply DecimalN.Unsigned.of_to.
Qed.

Lemma nzhead_head (d : uint) : forall d', nzhead d <> D0 d'.
Proof. induction d; simpl; try done. Qed.

(** The decimal text of a positive number starts with a digit that is not
    zero. *)
Lemma str_N_pos_head (p : positive) :
  exists c s, str_N (Npos p) = String c s /\ is_digit c = true /\ Ascii.eqb c "0" = false
              /\ Ascii.eqb c "-" = false.
Proof.
  unfold str_N. simpl N.to_uint.
  assert (Hnorm : Pos.to_uint p = unorm (Pos.to_uint p)).
  { pose proof (DecimalPos.Unsigned.to_of (Pos.to_uint p)) as H.
    rewrite DecimalPos.Unsigned.of_to in H. exact H. }
  pose proof (DecimalPos.Unsigned.to_uint_nonzero p) as Hnz.
  pose proof (nzhead_head (Pos.to_uint p)) as Hhead.
  unfold unorm in Hnorm.
  destruct (nzhead (Pos.to_uint p)) eqn:E; rewrite Hnorm in *;
    try (by exfalso; apply Hnz);
    try (by exfalso; eapply Hhead);
    simpl; eauto 10.
Qed.

Lemma scan_int_part_str_N (n : N) (rest : string) :
  ends_value rest = true ->
  scan_int_part (str_N n +:+ rest) = Some (str_N n, rest).
Proof.
  intros H. destruct n as [|p]; [done|].
  destruct (str_N_pos_head p) as (c & s & E & Hd & H0 & _).
  assert (Hs : str_N (Npos p) +:+ rest = String c (s +:+ rest)) by (by rewrite E).
  unfold scan_int_part. rewrite Hs. cbv iota beta. rewrite H0, Hd.
  rewrite <- Hs. unfold str_N. by rewrite span_digits_uint.
Qed.

Lemma scan_frac_stop (rest : string) :
  ends_value rest = true -> scan_frac rest = ("", rest).
Proof.
  destruct rest as [|c rest]; [done|]. simpl. intros H.
  destruct (Ascii.eqb c ".") eqn:E; [|done].
  apply Ascii.eqb_eq in E. by subst.
Qed.

Lemma scan_exp_stop (rest : string) :
  ends_value rest = true -> scan_exp rest = ("", rest).
Proof.
  destruct rest as [|c rest]; [done|]. simpl. intros H.
  destruct (Ascii.eqb c "e") eqn:E; [apply Ascii.eqb_eq in E; by subst|].
  destruct (Ascii.eqb c "E") eqn:E'; [apply Ascii.eqb_eq in E'; by subst|].
  done.
Qed.

Lemma scan_unsigned (n : N) (rest : string) :
  ends_value rest = true ->
  exists c s, str_N n +:+ rest = String c s
    /\ is_digit c = true
    /\ scan_number (str_N n +:+ rest) = Some (JInt (Z.of_N n), rest).
Proof.
  intros H.
  assert (Hhead : exists c s, str_N n = String c s /\ is_digit c = true
                              /\ Ascii.eqb c "-" = false).
  { destruct n as [|p]; [by exists "0"%char, ""|].
    destruct (str_N_pos_head p) as (c & s & E & Hd & _ & Hm). eauto 10. }
  destruct Hhead as (c & s & E & Hd & Hm).
  exists c, (s +:+ rest). split; [by rewrite E|]. split; [done|].
  assert (Hs : str_N n +:+ rest = String c (s +:+ rest)) by (by rewrite E).
  unfold scan_number. rewrite Hs. cbv iota beta. rewrite Hm.
  rewrite <- Hs, (scan_int_part_str_N n rest H).
  rewrite (scan_frac_stop rest H), (scan_exp_stop rest H).
  by rewrite N_of_digits_str_N.
Qed.

Lemma scan_number_str_Z (z : Z) (rest : string) :
  ends_value rest = true ->
  scan_number (str_Z z +:+ rest) = Some (JInt z, rest).
Proof.
  intros H. destruct z as [|p|p]; simpl str_Z.
  - by destruct (scan_unsigned 0 rest H) as (_ & _ & _ & _ & ->).
  - by destruct (scan_unsigned (Npos p) rest H) as (_ & _ & _ & _ & ->).
  - rewrite append_String. unfold scan_number. simpl.
    rewrite (scan_int_part_str_N (Npos p) rest H).
    rewrite (scan_frac_stop rest H), (scan_exp_stop rest H).
    by rewrite N_of_digits_str_N.
Qed.

(** The first character of the text of an integer sends [scan_once] to the
    number. *)
Lemma str_Z_head (z : Z) (rest : string) :
  exists c s, str_Z z +:+ rest = String c s /\ (is_digit c = true \/ c = "-"%char).
Proof.
  destruct z as [|p|p]; simpl str_Z.
  - exists "0"%char, rest. by split; [|left].
  - destruct (str_N_pos_head p) as (c & s & E & Hd & _).
    exists c, (s +:+ rest). rewrite E. by split; [|left].
  - rewrite append_String. eexists _, _. by split; [|right].
Qed.

Lemma digit_or_minus_dispatch (c : ascii) :
  is_digit c = true \/ c = "-"%char ->
  Ascii.eqb c dquote = false /\ Ascii.eqb c "{" = false /\ Ascii.eqb c "[" = false
  /\ Ascii.eqb c "n" = false /\ Ascii.eqb c "t" = false /\ Ascii.eqb c "f" = false.
Proof.
  intros [H| ->]; [|done].
  destruct c as [[] [] [] [] [] [] [] []]; try discriminate H; done.
Qed.

Lemma scan_once_int (fuel : nat) (z : Z) (rest : string) :
  ends_value rest = true ->
  scan_once (S fuel) (str_Z z +:+ rest) = Some (JInt z, rest).
Proof.
  intros H. pose proof (scan_number_str_Z z rest H) as Hnum.
  destruct (str_Z_head z rest) as (c & s & E & Hc).
  rewrite E in *. simpl.
  destruct (digit_or_minus_dispatch c Hc) as (-> & -> & -> & -> & -> & ->).
  by rewrite Hnum.
Qed.

(** ** Values through [dumps] and [scan_once] *)

Lemma value_ind' (P : value -> Prop) :
  (forall a, P (Atom a)) ->
  (forall items, Forall P items -> P (VList items)) ->
  (forall fields, Forall (fun kv => P (snd kv)) fields -> P (VDict fields)) ->
  forall v, P v.
Proof.
  intros Hatom Hlist Hdict. fix IH 1. intros [a|items|fields].
  - apply Hatom.
  - apply Hlist. induction items as [|v items IHitems]; constructor; [apply IH|done].
  - apply Hdict. induction fields as [|[k v] fields IHfields]; constructor; [apply IH|done].
Qed.

Lemma skip_ws_starts (s : string) : starts_value s = true -> skip_ws s = s.
Proof.
  destruct s as [|c s]; [done|]. simpl. by destruct (is_ws c).
Qed.

Lemma digit_or_minus_starts (c : ascii) (s : string) :
  is_digit c = true \/ c = "-"%char -> starts_value (String c s) = true.
Proof.
  intros [H| ->]; [|done].
  destruct c as [[] [] [] [] [] [] [] []]; try discriminate H; done.
Qed.

Lemma join_cons (sep p q : string) (l : list string) :
  join sep (p :: q :: l) = p +:+ sep +:+ join sep (q :: l).
Proof. reflexivity. Qed.

Lemma dumps_scalar_starts (a : scalar) (rest : string) :
  starts_value (dumps_scalar a +:+ rest) = true.
Proof.
  destruct a as [| |[]|z|s|d|h]; try done.
  destruct (str_Z_head z rest) as (c & s & E & Hc). simpl dumps_scalar. rewrite E.
  by apply digit_or_minus_starts.
Qed.

Lemma dumps_starts (v : value) (rest : string) :
  starts_value (dumps v +:+ rest) = true.
Proof. destruct v; [apply dumps_scalar_starts|done|done]. Qed.

Lemma scan_once_string (fuel : nat) (s rest : string) :
  scan_once (S fuel) (encode_basestring_ascii s +:+ rest)
  = Some (JString (codepoints s), rest).
Proof.
  destruct (scan_encoded_string s rest) as (body & -> & Hbody).
  simpl. by rewrite Hbody.
Qed.

Lemma scan_once_scalar (fuel : nat) (a : scalar) (rest : string) :
  ends_value rest = true ->
  scan_once (S fuel) (dumps_scalar a +:+ rest) = Some (json_of_scalar a, rest).
Proof.
  intros H. destruct a as [| |[]|z|s|d|h]; try reflexivity.
  - by apply scan_once_int.
  - apply scan_once_string.
  - apply scan_once_string.
  - apply scan_once_string.
Qed.

(** One step of the array and object loops of the decoder. *)
Lemma scan_once_array (fuel : nat) (body : string) :
  starts_value body = true ->
  scan_once (S fuel) (String "[" body)
  = match scan_items fuel body with
    | Some (vs, r) => Some (JArray vs, r)
    | None => None
    end.
Proof.
  intros Hs. simpl. rewrite (skip_ws_starts _ Hs).
  destruct body as [|c body]; [done|]. simpl in Hs.
  destruct (Ascii.eqb c "]"); [by rewrite andb_false_r in Hs|done].
Qed.

Lemma scan_once_object (fuel : nat) (body : string) :
  starts_value body = true ->
  scan_once (S fuel) (String "{" body)
  = match scan_members fuel body with
    | Some (ms, r) => Some (JObject ms, r)
    | None => None
    end.
Proof.
  intros Hs. simpl. rewrite (skip_ws_starts _ Hs).
  destruct body as [|c body]; [done|]. simpl in Hs.
  destruct (Ascii.eqb c "}"); [by rewrite andb_false_r in Hs|done].
Qed.

Lemma scan_items_last (fuel : nat) (s r : string) (j : json) :
  scan_once fuel s = Some (j, String "]" r) ->
  scan_items (S fuel) s = Some ([j], r).
Proof. intros H. simpl. by rewrite H. Qed.

Lemma scan_items_more (fuel : nat) (s r : string) (j : json) :
  scan_once fuel s = Some (j, String "," (String " " r)) ->
  starts_value r = true ->
  scan_items (S fuel) s
  = match scan_items fuel r with
    | Some (vs, r') => Some (j :: vs, r')
    | None => None
    end.
Proof. intros H Hr. simpl. rewrite H. simpl. by rewrite (skip_ws_starts _ Hr). Qed.

Lemma scan_members_last (fuel : nat) (body s r : string) (key : list N) (j : json) :
  scan_string body = Some (key, String ":" (String " " s)) ->
  starts_value s = true ->
  scan_once fuel s = Some (j, String "}" r) ->
  scan_members (S fuel) (String dquote body) = Some ([(key, j)], r).
Proof.
  intros Hk Hs H. simpl. rewrite Hk. simpl. rewrite (skip_ws_starts _ Hs), H. done.
Qed.

Lemma scan_members_more (fuel : nat) (body s r : string) (key : list N) (j : json) :
  scan_string body = Some (key, String ":" (String " " s)) ->
  starts_value s = true ->
  scan_once fuel s = Some (j, String "," (String " " r)) ->
  starts_value r = true ->
  scan_members (S fuel) (String dquote body)
  = match scan_members fuel r with
    | Some (ms, r') => Some ((key, j) :: ms, r')
    | None => None
    end.
Proof.
  intros Hk Hs H Hr. simpl. rewrite Hk. simpl. rewrite (skip_ws_starts _ Hs), H. simpl.
  by rewrite (skip_ws_starts _ Hr).
Qed.

Lemma items_text_one (v : value) (rest : string) :
  items_text [v] rest = dumps v +:+ String "]" rest.
Proof. reflexivity. Qed.

Lemma items_text_cons (v v' : value) (items : list value) (rest : string) :
  items_text (v :: v' :: items) rest
  = dumps v +:+ String "," (String " " (items_text (v' :: items) rest)).
Proof.
  unfold items_text. change (map dumps (v :: v' :: items))
    with (dumps v :: dumps v' :: map dumps items).
  rewrite join_cons. by autorewrite with text.
Qed.

Lemma items_text_starts (v : value) (items : list value) (rest : string) :
  starts_value (items_text (v :: items) rest) = true.
Proof.
  destruct items; [rewrite items_text_one | rewrite items_text_cons]; apply dumps_starts.
Qed.

Lemma members_text_one (k : string) (v : value) (rest : string) :
  members_text [(k, v)] rest
  = encode_basestring_ascii k
    +:+ String ":" (String " " (dumps v +:+ String "}" rest)).
Proof. unfold members_text, member_text. simpl. by autorewrite with text. Qed.

Lemma members_text_cons (k : string) (v : value) (kv : string * value)
    (fields : list (string * value)) (rest : string) :
  members_text ((k, v) :: kv :: fields) rest
  = encode_basestring_ascii k
    +:+ String ":" (String " " (dumps v
    +:+ String "," (String " " (members_text (kv :: fields) rest)))).
Proof.
  unfold members_text.
  change (map member_text ((k, v) :: kv :: fields))
    with (member_text (k, v) :: member_text kv :: map member_text fields).
  rewrite join_cons. unfold member_text at 1. simpl. by autorewrite with text.
Qed.

Lemma members_text_starts (kv : string * value) (fields : list (string * value))
    (rest : string) :
  starts_value (members_text (kv :: fields) rest) = true.
Proof.
  destruct kv as [k v].
  destruct fields; [rewrite members_text_one | rewrite members_text_cons]; done.
Qed.

Lemma scan_items_dumps (items : list value) :
  Forall scans_back items -> items <> [] ->
  forall fuel rest,
    (list_sum (map (fun x => S (size x)) items) <= fuel)%nat ->
    scan_items fuel (items_text items rest) = Some (map json_of_value items, rest).
Proof.
  induction 1 as [|v items Hv Hitems IH]; [done|]. intros _ fuel rest Hfuel.
  simpl in Hfuel. destruct fuel as [|fuel]; [lia|].
  destruct items as [|v' items].
  - rewrite items_text_one. apply scan_items_last. apply Hv; [lia|done].
  - rewrite items_text_cons.
    rewrite (scan_items_more fuel _ (items_text (v' :: items) rest) (json_of_value v)).
    + rewrite IH; [done|done|]. simpl in *. lia.
    + apply Hv; [lia|done].
    + apply items_text_starts.
Qed.

Lemma scan_members_dumps (fields : list (string * value)) :
  Forall (fun kv => scans_back (snd kv)) fields -> fields <> [] ->
  forall fuel rest,
    (list_sum (map (fun kv => S (size (snd kv))) fields) <= fuel)%nat ->
    scan_members fuel (members_text fields rest)
    = Some (map (fun kv => (codepoints (fst kv), json_of_value (snd kv))) fields, rest).
Proof.
  induction 1 as [|[k v] fields Hv Hfields IH]; [done|]. intros _ fuel rest Hfuel.
  simpl in Hfuel, Hv. destruct fuel as [|fuel]; [lia|].
  destruct fields as [|kv' fields].
  - rewrite members_text_one.
    destruct (scan_encoded_string k (String ":" (String " " (dumps v +:+ String "}" rest))))
      as (body & -> & Hbody).
    apply (scan_members_last fuel body _ rest (codepoints k) (json_of_value v) Hbody).
    + apply dumps_starts.
    + apply Hv; [lia|done].
  - rewrite members_text_cons.
    destruct (scan_encoded_string k
                (String ":" (String " " (dumps v +:+ String "," (String " "
                   (members_text (kv' :: fields) rest))))))
      as (body & -> & Hbody).
    rewrite (scan_members_more fuel body _ (members_text (kv' :: fields) rest)
               (codepoints k) (json_of_value v) Hbody).
    + rewrite IH; [done|done|]. simpl in *. lia.
    + apply dumps_starts.
    + apply Hv; [lia|done].
    + apply members_text_starts.
Qed.

Lemma dumps_list (items : list value) (rest : string) :
  items <> [] -> dumps (VList items) +:+ rest = String "[" (items_text items rest).
Proof. intros _. unfold items_text. simpl dumps. by autorewrite with text. Qed.

Lemma dumps_dict (fields : list (string * value)) (rest : string) :
  fields <> [] -> dumps (VDict fields) +:+ rest = String "{" (members_text fields rest).
Proof. intros _. unfold members_text. simpl dumps. by autorewrite with text. Qed.

Lemma scan_once_dumps (v : value) : scans_back v.
Proof.
  induction v as [a|items IH|fields IH] using value_ind'; intros fuel rest Hfuel Hrest.
  - destruct fuel as [|fuel]; [simpl in Hfuel; lia|]. by apply scan_once_scalar.
  - simpl in Hfuel. destruct fuel as [|fuel]; [lia|].
    destruct items as [|v items]; [done|].
    rewrite dumps_list by done. rewrite scan_once_array by apply items_text_starts.
    rewrite (scan_items_dumps (v :: items) IH) by (done || lia). done.
  - simpl in Hfuel. destruct fuel as [|fuel]; [lia|].
    destruct fields as [|kv fields]; [done|].
    rewrite dumps_dict by done. rewrite scan_once_object by apply members_text_starts.
    rewrite (scan_members_dumps (kv :: fields) IH) by (done || lia). done.
Qed.

(** ** The length of the text is fuel enough *)

Lemma starts_value_length (s : string) :
  starts_value s = true -> (1 <= String.length s)%nat.
Proof. destruct s; [done|]. simpl. lia. Qed.

Lemma join_length_bound {A} (text : A -> string) (weight : A -> nat) (l : list A) :
  Forall (fun x => (weight x <= String.length (text x))%nat) l ->
  (list_sum (map (fun x => S (weight x)) l)
   <= String.length (join ", " (map text l)) + 1)%nat.
Proof.
  induction 1 as [|x l Hx Hl IH]; [simpl; lia|].
  destruct l as [|y l].
  - simpl. lia.
  - change (map text (x :: y :: l)) with (text x :: text y :: map text l).
    rewrite join_cons, !length_append.
    change (map text (y :: l)) with (text y :: map text l) in IH.
    simpl in *. lia.
Qed.

Lemma size_le_length (v : value) : (size v <= String.length (dumps v))%nat.
Proof.
  induction v as [a|items IH|fields IH] using value_ind'.
  - simpl. apply starts_value_length.
    rewrite <- (append_nil_r (dumps_scalar a)). apply dumps_scalar_starts.
  - simpl dumps. rewrite !length_append. simpl.
    pose proof (join_length_bound dumps size items IH). lia.
  - simpl dumps. rewrite !length_append. simpl.
    pose proof (join_length_bound member_text (fun kv => size (snd kv)) fields) as H.
    unfold member_text in H. simpl in H.
    assert (Hfields : Forall (fun x : string * value =>
              (size (snd x) <= String.length
                 (encode_basestring_ascii (fst x) +:+ ": " +:+ dumps (snd x)))%nat) fields).
    { eapply Forall_impl; [exact IH|]. intros kv Hkv. simpl in Hkv.
      rewrite !length_append. lia. }
    specialize (H Hfields). lia.
Qed.

(** ** [json.loads(json.dumps(v, default=str))] *)

Lemma loads_dumps (v : value) : loads (dumps v) = Some (json_of_value v).
Proof.
  unfold loads.
  assert (Hs : starts_value (dumps v) = true).
  { rewrite <- (append_nil_r (dumps v)). apply dumps_starts. }
  rewrite (skip_ws_starts _ Hs).
  rewrite <- (append_nil_r (dumps v)) at 2.
  rewrite (scan_once_dumps v (String.length (dumps v)) "" (size_le_length v) eq_refl).
  done.
Qed.

Lemma strict_json_of_value (v : value) : strict_json (json_of_value v) = nan_free v.
Proof.
  induction v as [a|items IH|fields IH] using value_ind'.
  - by destruct a.
  - simpl. induction IH as [|x l Hx _ IHl]; simpl; [done|]. by rewrite Hx, IHl.
  - simpl. induction IH as [|x l Hx _ IHl]; simpl; [done|]. by rewrite Hx, IHl.
Qed.

(** The text [json.dumps(v, default=str)] writes is JSON exactly when [v]
    holds no NaN. *)
Lemma dumps_valid_json_iff (v : value) :
  valid_json (dumps v) <-> nan_free v = true.
Proof.
  split.
  - intros (j & Hj & Hstrict). rewrite loads_dumps in Hj. injection Hj as <-.
    by rewrite strict_json_of_value in Hstrict.
  - intros Hnan. exists (json_of_value v). split; [apply loads_dumps|].
    by rewrite strict_json_of_value.
Qed.

Lemma applymap_column (f : value -> value) (df : DataFrame) (j : nat) (label : string)
    (column : list value) :
  cols df !! j = Some (label, column) ->
  columns (applymap f df) !! j = Some (label, maybe_convert_objects false (map f column)).
Proof.
  intros Hj. unfold applymap. cbn [columns].
  change (map ?g (cols df)) with (g <$> cols df). by rewrite list_lookup_fmap, Hj.
Qed.

(** A text, an ObjectId, a list or a dict in a column makes inference leave
    the column as it is. *)
Lemma objects_kept (cells : list value) :
  existsb is_object cells = true -> existsb beyond_int64 cells = false ->
  kept_as_is false cells.
Proof.
  intros Hobj Hbig. unfold kept_as_is, maybe_convert_objects. by rewrite Hbig, Hobj.
Qed.

(** ** The shape of [isoformat] *)

Lemma length_string_of_uint (d : uint) :
  String.length (NilEmpty.string_of_uint d) = nb_digits d.
Proof. induction d; simpl; congruence. Qed.

Lemma all_digits_string_of_uint (d : uint) :
  all_digits (NilEmpty.string_of_uint d) = true.
Proof. induction d; simpl; try done. Qed.

Lemma usize_nb_digits (d : uint) :
  DecimalPos.Unsigned.usize d = N.of_nat (nb_digits d).
Proof. induction d; simpl nb_digits; simpl DecimalPos.Unsigned.usize; lia. Qed.

(** A number written with a leading digit that is not zero is at least the
    power of ten of the digits that follow. *)
Lemma of_uint_acc_lower (d : uint) (acc : positive) :
  (10 ^ N.of_nat (nb_digits d) <= Npos (Pos.of_uint_acc d acc))%N.
Proof.
  rewrite DecimalPos.Unsigned.of_uint_acc_rev, usize_nb_digits.
  nia.
Qed.

Lemma to_uint_digits (p : positive) :
  (10 ^ N.of_nat (nb_digits (Pos.to_uint p) - 1) <= Npos p)%N.
Proof.
  pose proof (DecimalPos.Unsigned.of_to p) as Hp.
  assert (Hnorm : Pos.to_uint p = unorm (Pos.to_uint p)).
  { pose proof (DecimalPos.Unsigned.to_of (Pos.to_uint p)) as H.
    rewrite DecimalPos.Unsigned.of_to in H. exact H. }
  pose proof (DecimalPos.Unsigned.to_uint_nonzero p) as Hnz.
  pose proof (nzhead_head (Pos.to_uint p)) as Hhead.
  unfold unorm in Hnorm.
  destruct (nzhead (Pos.to_uint p)) as [|u|u|u|u|u|u|u|u|u|u] eqn:E; rewrite Hnorm in *;
    try (by exfalso; apply Hnz);
    try (by exfalso; eapply Hhead);
    simpl in Hp; rewrite <- Hp; simpl nb_digits; rewrite Nat.sub_1_r; simpl Nat.pred;
    apply of_uint_acc_lower.
Qed.

Lemma str_N_length (w : nat) (n : N) :
  (1 <= w)%nat -> (n < 10 ^ N.of_nat w)%N -> (String.length (str_N n) <= w)%nat.
Proof.
  intros Hw Hn. unfold str_N. rewrite length_string_of_uint.
  destruct n as [|p]; [simpl; lia|]. simpl N.to_uint.
  pose proof (to_uint_digits p) as Hlow.
  destruct (decide (nb_digits (Pos.to_uint p) <= w)%nat) as [|Hbig]; [done|].
  exfalso.
  assert (10 ^ N.of_nat w <= 10 ^ N.of_nat (nb_digits (Pos.to_uint p) - 1))%N
    by (apply N.pow_le_mono_r; lia).
  lia.
Qed.

Lemma length_replicate_char (n : nat) (c : ascii) :
  String.length (replicate_char n c) = n.
Proof. induction n; simpl; congruence. Qed.

Lemma all_digits_append (a b : string) :
  all_digits (a +:+ b) = all_digits a && all_digits b.
Proof.
  induction a as [|c a IH]; [done|]. rewrite append_String. unfold all_digits in *.
  simpl. by rewrite IH, andb_assoc.
Qed.

Lemma all_digits_zeros (n : nat) : all_digits (replicate_char n "0") = true.
Proof. induction n; [done|]. unfold all_digits in *. simpl. exact IHn. Qed.

(** ["%0<w>d" % n] is [w] digits when [n] has no more than [w]. *)
Lemma zfill_field (w : nat) (n : N) :
  (1 <= w)%nat -> (n < 10 ^ N.of_nat w)%N -> is_field w (zfill w n) = true.
Proof.
  intros Hw Hn. pose proof (str_N_length w n Hw Hn) as Hlen.
  unfold is_field, zfill. rewrite length_append, length_replicate_char.
  rewrite all_digits_append, all_digits_zeros.
  unfold str_N in *. rewrite all_digits_string_of_uint.
  rewrite andb_true_r. apply Nat.eqb_eq. lia.
Qed.

Lemma isoformat_shape (d : datetime) :
  valid_datetime d -> iso8601_shape (isoformat d).
Proof.
  intros (Hy & Hmo & Hd & Hh & Hmi & Hs & Hus).
  exists (zfill 4 (year d)), (zfill 2 (month d)), (zfill 2 (day d)),
    (zfill 2 (hour d)), (zfill 2 (minute d)), (zfill 2 (second d)),
    (if (microsecond d =? 0)%N then "" else "." +:+ zfill 6 (microsecond d)).
  split; [unfold isoformat, isoformat_sep, str1; by autorewrite with text|].
  repeat split; try (apply zfill_field; [lia|simpl; lia]).
  destruct (microsecond d =? 0)%N; [by left|right].
  exists (zfill 6 (microsecond d)). split; [done|]. apply zfill_field; [lia|simpl; lia].
Qed.

(** C6, as the code has it: for a list or a dict, [serialize_complex_data]
    returns the text [json.dumps] writes, which [json.loads] reads back as
    the structure of the value with every object JSON has no literal for
    replaced by its [str]; that text is JSON when the value holds no float
    (NaN is the one float of the model) and is not JSON when it holds a NaN;
    for a datetime it returns [isoformat], of the shape YYYY-MM-DDThh:mm:ss
    with an optional fraction of six digits; any other value comes back as
    it is.  [serialize_dataframe] keeps the row count and the labels and
    serializes each cell, after which pandas infers the dtype of each column
    anew: a column that then holds a text (so every column in which a cell
    had to be serialized) has exactly the serialized cells, a column of ints
    and nulls is made float64. *)
Theorem serialize_complex_data_spec (v : value) :
  (is_composite v = true ->
     serialize_complex_data v = VStr (dumps v)
     /\ loads (dumps v) = Some (json_of_value v)
     /\ (nan_free v = true -> valid_json (dumps v))
     /\ (nan_free v = false -> ~ valid_json (dumps v)))
  /\ (forall d, v = Atom (SDatetime d) ->
        serialize_complex_data v = VStr (isoformat d)
        /\ (valid_datetime d -> iso8601_shape (isoformat d)))
  /\ (is_composite v = false -> (forall d, v <> Atom (SDatetime d)) ->
        serialize_complex_data v = v)
  /\ (forall df,
        index (serialize_dataframe df) = nrows df
        /\ map fst (columns (serialize_dataframe df)) = labels df
        /\ forall j label column,
             cols df !! j = Some (label, column) ->
             let serialized := map serialize_complex_data column in
             columns (serialize_dataframe df) !! j
             = Some (label, maybe_convert_objects false serialized)
             /\ (existsb is_object serialized = true ->
                 existsb beyond_int64 serialized = false ->
                 maybe_convert_objects false serialized = Kept serialized)
             /\ (ints_and_nulls serialized = true ->
                 maybe_convert_objects false serialized = Float64 serialized)).
Proof.
  split; [|split; [|split]].
  - intros Hc. split; [by destruct v|]. split; [apply loads_dumps|].
    split.
    + intros Hv. by apply dumps_valid_json_iff.
    + intros Hv Hvalid. apply dumps_valid_json_iff in Hvalid. congruence.
  - intros d ->. split; [done|apply isoformat_shape].
  - intros Hc Hd. destruct v as [[]| |]; try done. by destruct (Hd d).
  - intros df. split; [done|]. split.
    + unfold labels, serialize_dataframe, applymap. simpl. rewrite map_map. done.
    + intros j label column Hj serialized. split; [by apply applymap_column|].
      split; [apply objects_kept | apply ints_and_nulls_float64].
Qed.

Example nan_is_not_json :
  serialize_complex_data (VList [NaN]) = VStr "[NaN]"
  /\ ~ valid_json "[NaN]".
Proof.
  split; [reflexivity|]. intros (j & Hj & Hstrict).
  vm_compute in Hj. injection Hj as <-. discriminate Hstrict.
Qed.

Example cells_of_a_column_are_coupled :
  serialize_complex_data (Atom SNone) = Atom SNone
  /\ columns (serialize_dataframe (mkDF 2 [("note", [Atom SNone; NaN])]))
     = [("note", Kept [NaN; NaN])]
  /\ columns (serialize_dataframe table_people)
     = [("name", Kept [VStr "Ann"; VStr "Bo"]);
        ("age", Float64 [Atom (SInt 30); Atom SNone])].
Proof. repeat split. Qed.

(** C6 as the specification states it fails twice: a list that holds NaN is
    written with the bare word [NaN], which is not JSON; and the cells of a
    table are not serialized independently of each other, a None beside a
    NaN comes out as NaN, and beside an int it comes out as NaN in a float64
    column. *)
Lemma serialization_claim_fails :
  (serialize_complex_data (VList [NaN]) = VStr "[NaN]" /\ ~ valid_json "[NaN]")
  /\ serialize_complex_data (Atom SNone) = Atom SNone
  /\ columns (serialize_dataframe (mkDF 2 [("note", [Atom SNone; NaN])]))
     = [("note", Kept [NaN; NaN])]
  /\ columns (serialize_dataframe table_people)
     = [("name", Kept [VStr "Ann"; VStr "Bo"]);
        ("age", Float64 [Atom (SInt 30); Atom SNone])].
Proof. split; [apply nan_is_not_json | apply cells_of_a_column_are_coupled]. Qed.

Example serialize_tags :
  serialize_complex_data (VList [VStr "x"; VStr "y"])
  = VStr (String "[" (String dquote (String "x" (String dquote (String "," (String " "
         (String dquote (String "y" (String dquote "]"))))))))).
Proof. reflexivity. Qed.

Lemma serialize_complex_data_spec_witness :
  valid_json
    (dumps (VDict [("tags", VList [VStr "x"; Atom (SInt (-2)); Atom SNone]);
                   ("when", Atom (SDatetime (mkDatetime 2024 2 29 23 59 58 0)))])).
Proof.
  destruct (serialize_complex_data_spec
              (VDict [("tags", VList [VStr "x"; Atom (SInt (-2)); Atom SNone]);
                      ("when", Atom (SDatetime (mkDatetime 2024 2 29 23 59 58 0)))]))
    as [Hcomposite _].
  destruct (Hcomposite eq_refl) as (_ & _ & Hvalid & _).
  apply Hvalid. reflexivity.
Defined.

(** ** Saving, then loading *)

Lemma list_as_seq (a : list value) :
  map (fun i => default NaN (a !! i)) (seq 0 (length a)) = a.
Proof.
  induction a as [|x a IH]; [done|].
  simpl length. rewrite <- cons_seq, <- seq_shift. simpl.
  f_equal. rewrite map_map. exact IH.
Qed.

Lemma zip_star_rows (arrays : list (list value)) (n : nat) :
  arrays <> [] -> Forall (fun a => length a = n) arrays ->
  zip_star arrays = map (fun i => map (fun a => default NaN (a !! i)) arrays) (seq 0 n).
Proof.
  induction arrays as [|a rest IH]; [done|]. intros _ Hall.
  apply Forall_cons in Hall as [Ha Hrest].
  destruct rest as [|b rest'].
  - simpl. rewrite <- Ha. rewrite <- (list_as_seq a) at 1.
    by rewrite map_map.
  - change (zip_star (a :: b :: rest')) with (zip_with cons a (zip_star (b :: rest'))).
    rewrite IH by done.
    rewrite <- (list_as_seq a) at 1. rewrite Ha.
    apply (zip_with_cons_columns (fun i => default NaN (a !! i))
             (fun i => map (fun a0 => default NaN (a0 !! i)) (b :: rest'))).
Qed.

Lemma zip_labels {A} (g : string * list value -> A) (cs : list (string * list value)) :
  zip (map fst cs) (map g cs) = map (fun col => (fst col, g col)) cs.
Proof. induction cs as [|c cs IH]; [done|]. simpl. by f_equal. Qed.

(** Row [i] of a frame as a record. *)
Lemma to_dict_records_rows (df : DataFrame) :
  wf df -> unique_labels df -> cols df <> [] ->
  to_dict_records df
  = map (fun i => map (fun col => (fst col, default NaN (snd col !! i))) (cols df))
        (seq 0 (nrows df)).
Proof.
  intros Hwf Hu Hne. unfold to_dict_records.
  rewrite (zip_star_rows (map snd (cols df)) (nrows df)).
  - rewrite map_map. apply map_ext. intros i.
    rewrite map_map.
    unfold labels.
    rewrite (zip_labels (fun x => default NaN (snd x !! i))).
    apply dict_of_unique. rewrite map_map. exact Hu.
  - by destruct (cols df).
  - change (map snd (cols df)) with (snd <$> cols df). apply Forall_fmap. exact Hwf.
Qed.

Lemma to_dict_records_length (df : DataFrame) :
  wf df -> cols df <> [] -> length (to_dict_records df) = nrows df.
Proof.
  intros Hwf Hne. unfold to_dict_records.
  rewrite (zip_star_rows (map snd (cols df)) (nrows df)).
  - by rewrite !length_map, length_seq.
  - by destruct (cols df).
  - change (map snd (cols df)) with (snd <$> cols df). apply Forall_fmap. exact Hwf.
Qed.

Lemma assign_ids_length (n : N) (docs : list document) :
  length (fst (assign_ids n docs)) = length docs.
Proof.
  revert n. induction docs as [|d rest IH]; intros n; [done|].
  simpl. destruct (has_label "_id" (map fst d)).
  - specialize (IH n). destruct (assign_ids n rest). simpl in *. by f_equal.
  - specialize (IH (n + 1)%N). destruct (assign_ids (n + 1) rest). simpl in *. by f_equal.
Qed.

Lemma assign_ids_has_id (n : N) (docs : list document) :
  Forall (fun d => "_id" ∈ map fst d) (fst (assign_ids n docs)).
Proof.
  revert n. induction docs as [|d rest IH]; intros n; [constructor|].
  simpl. destruct (has_label "_id" (map fst d)) eqn:E.
  - specialize (IH n). destruct (assign_ids n rest). simpl in *.
    constructor; [by apply has_label_elem | done].
  - specialize (IH (n + 1)%N). destruct (assign_ids (n + 1) rest). simpl in *.
    constructor; [simpl; constructor | done].
Qed.

(** A document without [_id] is stored with one put in front. *)
Lemma assign_ids_fresh (n : N) (docs : list document) :
  Forall (fun d => "_id" ∉ map fst d) docs ->
  Forall2 (fun s d => exists oid, s = ("_id", Atom (SObjectId oid)) :: d)
          (fst (assign_ids n docs)) docs.
Proof.
  revert n. induction docs as [|d rest IH]; intros n Hall; [constructor|].
  apply Forall_cons in Hall as [Hd Hrest].
  simpl. apply has_label_false in Hd. rewrite Hd.
  specialize (IH (n + 1)%N Hrest). destruct (assign_ids (n + 1) rest). simpl in *.
  constructor; [by eexists | done].
Qed.

Lemma first_occurrences_fold (stream : list string) :
  first_occurrences stream = fold_left see stream [].
Proof.
  rewrite fold_see. simpl. symmetry.
  apply (filter_keeps_all (fun k => negb (has_label k []))). done.
Qed.

Lemma first_occurrences_NoDup (ks : list string) :
  NoDup ks -> first_occurrences ks = ks.
Proof.
  induction 1 as [|k ks Hk Hnd IH]; [done|].
  simpl. rewrite IH. f_equal.
  apply (filter_keeps_all (fun k' => negb (String.eqb k' k))).
  intros x Hx. apply negb_true_iff, String.eqb_neq. intros ->. done.
Qed.

Lemma filter_drops_all {A} (P : A -> bool) (l : list A) :
  (forall x, x ∈ l -> P x = false) -> filter (fun x => P x) l = [].
Proof.
  induction l as [|x l IH]; intros H; [done|].
  rewrite filter_cons_False.
  - apply IH. intros y Hy. apply H. by right.
  - rewrite (H x) by left. simpl. tauto.
Qed.

(** Keys met again add nothing. *)
Lemma first_occurrences_absorb (ks more : list string) :
  NoDup ks -> (forall k, k ∈ more -> k ∈ ks) -> first_occurrences (ks ++ more) = ks.
Proof.
  intros Hnd Hin.
  rewrite first_occurrences_fold, fold_left_app, <- first_occurrences_fold.
  rewrite (first_occurrences_NoDup ks Hnd), fold_see.
  rewrite (filter_drops_all (fun k => negb (has_label k ks))).
  - apply app_nil_r.
  - intros x Hx. apply negb_false_iff, has_label_elem, Hin.
    by apply elem_of_first_occurrences.
Qed.

Lemma key_stream_same_keys (docs : list document) (ks : list string) :
  Forall (fun d => map fst d = ks) docs -> forall k, k ∈ key_stream docs -> k ∈ ks.
Proof.
  intros Hall k Hk. apply elem_of_key_stream in Hk as (d & Hd & Hkd).
  rewrite Forall_forall in Hall. by rewrite <- (Hall d Hd).
Qed.

Lemma first_occurrences_same_keys (docs : list document) (ks : list string) :
  docs <> [] -> NoDup ks -> Forall (fun d => map fst d = ks) docs ->
  first_occurrences (key_stream docs) = ks.
Proof.
  intros Hne Hnd Hall. destruct docs as [|d rest]; [done|].
  apply Forall_cons in Hall as [Hd Hrest].
  unfold key_stream. simpl. rewrite Hd.
  apply first_occurrences_absorb; [done|].
  apply (key_stream_same_keys rest ks Hrest).
Qed.

Lemma dict_get_column (cs : list (string * list value)) (i : nat) (col : string * list value) :
  NoDup (map fst cs) -> col ∈ cs ->
  dict_get (fst col) (map (fun c => (fst c, default NaN (snd c !! i))) cs)
  = Some (default NaN (snd col !! i)).
Proof.
  induction cs as [|c cs IH]; intros Hnd Hin; [by apply elem_of_nil in Hin|].
  simpl in Hnd. apply NoDup_cons in Hnd as [Hc Hnd].
  simpl. apply elem_of_cons in Hin as [->|Hin].
  - by rewrite String.eqb_refl.
  - destruct (String.eqb (fst c) (fst col)) eqn:E.
    + apply String.eqb_eq in E. exfalso. apply Hc. rewrite E.
      change (map fst cs) with (fst <$> cs). apply list_elem_of_fmap. by exists col.
    + by apply IH.
Qed.

Lemma dict_get_skip (k k' : string) (v : value) (d : document) :
  k' <> k -> dict_get k ((k', v) :: d) = dict_get k d.
Proof. intros Hk. simpl. apply String.eqb_neq in Hk. by rewrite Hk. Qed.

Lemma column_of_stored (stored docs : list document) (k : string) :
  Forall2 (fun s d => exists oid, s = ("_id", Atom (SObjectId oid)) :: d) stored docs ->
  k <> "_id" -> column_of stored k = column_of docs k.
Proof.
  intros H Hk. unfold column_of.
  induction H as [|s d stored docs [oid ->] _ IH]; [done|].
  rewrite !map_cons. f_equal; [|exact IH].
  by rewrite dict_get_skip.
Qed.

(** [save_data] followed by [load_data] on the same collection gives back
    the table that was saved, labels, order and cells, whatever the
    collection held before: for a table with one cell per row in every
    column, unique labels none of which is [_id], at least one column and
    at least one row, whose columns come back from the store and from the
    frame constructor as they are (field names the store takes, cells BSON
    holds exactly, a dtype inference that keeps the cells), saved under
    names the store takes. *)
Theorem save_then_load_round_trip (client : MongoClient) (db_name collection_name : string)
    (df : DataFrame) :
  plain_name db_name = true -> plain_name collection_name = true ->
  wf df -> unique_labels df -> "_id" ∉ labels df -> cols df <> [] -> (0 < nrows df)%nat ->
  Forall round_trips (cols df) ->
  exists client' frame,
    save_data client db_name collection_name df = (client', Ok tt)
    /\ load_data client' db_name collection_name = Ok frame
    /\ as_table frame = Some df.
Proof.
  intros _ _ Hwf Hu Hid Hne Hrows Hrt.
  pose proof (save_data_collection client db_name collection_name df) as Hfind.
  pose proof (to_dict_records_rows df Hwf Hu Hne) as Hrec.
  set (records := to_dict_records df) in *.
  assert (Hkeys : Forall (fun d => map fst d = labels df) records).
  { rewrite Hrec. apply Forall_forall. intros d Hd.
    change (map ?f ?l) with (f <$> l) in Hd. apply list_elem_of_fmap in Hd as (i & -> & _).
    by rewrite map_map. }
  assert (Hnoid : Forall (fun d => "_id" ∉ map fst d) records).
  { eapply Forall_impl; [exact Hkeys|]. intros d ->. exact Hid. }
  assert (Hlen : length records = nrows df).
  { rewrite Hrec. by rewrite length_map, length_seq. }
  assert (Hsave : exists client', save_data client db_name collection_name df = (client', Ok tt)).
  { unfold save_data. fold records. unfold insert_many.
    destruct records as [|r rs]; [simpl in Hlen; lia|].
    destruct (assign_ids _ (r :: rs)). by eexists. }
  destruct Hsave as [client' Hsave]. exists client'. eexists.
  split; [exact Hsave|]. split; [apply load_data_run|].
  rewrite Hsave in Hfind. simpl in Hfind.
  pose proof (assign_ids_fresh (next_oid client) records Hnoid) as Hst.
  rewrite <- Hfind in Hst.
  set (stored := find client' db_name collection_name) in *.
  assert (Hslen : length stored = nrows df).
  { rewrite <- Hlen. by eapply Forall2_length. }
  assert (Hskeys : Forall (fun s => map fst s = "_id" :: labels df) stored).
  { clear -Hst Hkeys. induction Hst as [|s d stored docs [oid ->] _ IH]; [constructor|].
    apply Forall_cons in Hkeys as [Hd Hrest].
    constructor; [simpl; by rewrite Hd | by apply IH]. }
  assert (Hcol : forall col, col ∈ cols df -> column_of stored (fst col) = snd col).
  { intros [k column] Hcol. cbn [fst snd].
    rewrite (column_of_stored stored records k Hst).
    - unfold column_of. rewrite Hrec, map_map.
      transitivity (map (fun i => default NaN (column !! i)) (seq 0 (nrows df))).
      { apply map_ext. intros i.
        pose proof (dict_get_column (cols df) i (k, column) Hu Hcol) as Hg.
        cbn [fst snd] in Hg. by rewrite Hg. }
      unfold wf in Hwf. rewrite Forall_forall in Hwf.
      rewrite <- (Hwf _ Hcol). apply list_as_seq.
    - intros ->. apply Hid. unfold labels.
      change (map fst (cols df)) with (fst <$> cols df). apply list_elem_of_fmap.
      by exists ("_id", column). }
  rewrite (first_occurrences_same_keys stored ("_id" :: labels df)).
  - rewrite filter_cons_False by (simpl; tauto).
    rewrite (filter_keeps_all not_id).
    + unfold as_table. cbn [index columns].
      rewrite (kept_columns_map _ (column_of stored) (labels df)).
      * simpl. rewrite Hslen. f_equal.
        etrans; [|apply DataFrame_eta]. f_equal.
        unfold labels. rewrite map_map.
        rewrite <- (map_id (cols df)) at 2.
        apply map_ext_in. intros col Hin. apply list_elem_of_In in Hin.
        rewrite (Hcol col Hin). by destruct col.
      * unfold labels. change (map fst (cols df)) with (fst <$> cols df).
        apply Forall_fmap, Forall_forall. intros col Hin. simpl.
        rewrite (Hcol col Hin).
        rewrite Forall_forall in Hrt. apply (Hrt col Hin).
    + intros k Hk. apply negb_true_iff, String.eqb_neq. intros ->. done.
  - destruct stored; [simpl in Hslen; lia | done].
  - apply NoDup_cons. split; [exact Hid | exact Hu].
  - exact Hskeys.
Qed.

Lemma save_then_load_round_trip_witness :
  exists client' frame,
    save_data (client_of docs_people) "shop" "people" table_sales = (client', Ok tt)
    /\ load_data client' "shop" "people" = Ok frame
    /\ as_table frame = Some table_sales.
Proof.
  apply (save_then_load_round_trip (client_of docs_people) "shop" "people" table_sales).
  - reflexivity.
  - reflexivity.
  - repeat constructor.
  - unfold unique_labels. simpl. labels_nodup.
  - simpl. label_out.
  - discriminate.
  - simpl. lia.
  - repeat constructor.
Defined.

(** ** What [save_data] stores *)

Lemma find_save_data_other (client : MongoClient) (db_name collection_name db' collection' : string)
    (df : DataFrame) :
  (db', collection') <> (db_name, collection_name) ->
  find (fst (save_data client db_name collection_name df)) db' collection'
  = find client db' collection'.
Proof.
  intros Hne. unfold save_data, insert_many.
  destruct (to_dict_records df) as [|r rs].
  - simpl. unfold find, delete_many. simpl. by rewrite lookup_insert_ne.
  - destruct (assign_ids _ (r :: rs)). simpl. unfold find at 1. simpl.
    rewrite lookup_insert_ne by done.
    unfold delete_many. simpl. by rewrite lookup_insert_ne.
Qed.

Lemma save_data_no_columns (client : MongoClient) (db_name collection_name : string)
    (df : DataFrame) :
  cols df = [] ->
  save_data client db_name collection_name df
  = (delete_many client db_name collection_name,
     Raise (TypeError "documents must be a non-empty list")).
Proof. intros H. unfold save_data, to_dict_records. by rewrite H. Qed.

(** Once every column has been removed, the table left has its rows but no
    column, and saving it is the failure of the empty table: the collection
    is emptied, then the insert raises. *)
Theorem remove_all_columns_then_save (client : MongoClient) (db_name collection_name : string)
    (df : DataFrame) :
  exists df0,
    remove_columns (labels df) df = (df, Ok df0)
    /\ cols df0 = [] /\ nrows df0 = nrows df
    /\ save_data client db_name collection_name df0
       = (delete_many client db_name collection_name,
          Raise (TypeError "documents must be a non-empty list"))
    /\ find (delete_many client db_name collection_name) db_name collection_name = [].
Proof.
  assert (Hdrop : drop_columns (labels df) df = Ok (mkDF (nrows df) [])).
  { rewrite drop_columns_present by (apply Forall_forall; auto).
    f_equal. f_equal.
    apply (filter_drops_all (fun col => negb (has_label (fst col) (labels df)))).
    intros col Hcol. apply negb_false_iff, has_label_elem.
    unfold labels. change (map fst (cols df)) with (fst <$> cols df).
    apply list_elem_of_fmap. by exists col. }
  exists (mkDF (nrows df) []).
  split; [unfold remove_columns, mbind, Py_bind, get_data, lift; by rewrite Hdrop|].
  split; [done|]. split; [done|].
  split; [by apply save_data_no_columns | apply find_delete_many].
Qed.

(** ** The buttons of the main page *)

Lemma process_uploaded_file_table `{TableReaders} (file : UploadedFile) (data : DataFrame)
    (shown : list feedback) :
  process_uploaded_file (Some file) = (Some data, shown) -> shown = [].
Proof.
  unfold process_uploaded_file.
  destruct (endswith (name file) ".csv"); [destruct (read_csv file); congruence|].
  destruct (endswith (name file) ".xlsx"); [destruct (read_excel file); congruence|].
  congruence.
Qed.

(** When [process_uploaded_file] returns no table, because the file name
    ends neither in [.csv] nor in [.xlsx] (the test is case sensitive) or
    because the parser raised, it has shown exactly one error, and "Upload
    and Save Data" changes neither the store nor the session and reports no
    success. *)
Theorem upload_without_table_changes_nothing `{TableReaders} (file : UploadedFile)
    (db_name collection_name : string) (app : app_state) (shown : list feedback) :
  process_uploaded_file (Some file) = (None, shown) ->
  (exists msg, shown = [Error msg])
  /\ (endswith (name file) ".csv" = false -> endswith (name file) ".xlsx" = false ->
      shown = [Error "Unsupported file type. Please upload a CSV or Excel file."])
  /\ fst (upload_and_save_button (Some file) db_name collection_name app) = app
  /\ Forall (fun f => is_success f = false)
       (snd (upload_and_save_button (Some file) db_name collection_name app)).
Proof.
  intros Hp. unfold upload_and_save_button. rewrite Hp.
  assert (Hshown : exists msg, shown = [Error msg]).
  { revert Hp. unfold process_uploaded_file.
    destruct (endswith (name file) ".csv");
      [destruct (read_csv file); intros [= <-]; by eexists|].
    destruct (endswith (name file) ".xlsx");
      [destruct (read_excel file); intros [= <-]; by eexists|].
    intros [= <-]; by eexists. }
  split; [exact Hshown|]. split.
  { intros E1 E2. revert Hp. unfold process_uploaded_file. rewrite E1, E2. congruence. }
  destruct Hshown as [msg ->].
  destruct (truthy db_name && truthy collection_name); split; try done; by repeat constructor.
Qed.

Lemma upload_without_table_changes_nothing_witness :
  let file := mkUpload "people.CSV" "name,age" in
  let app := mkApp (client_of docs_people) (Some table_people) in
  @process_uploaded_file toy_readers (Some file)
  = (None, [Error "Unsupported file type. Please upload a CSV or Excel file."])
  /\ fst (@upload_and_save_button toy_readers (Some file) "shop" "people" app) = app.
Proof.
  intros file app. split; [reflexivity|].
  apply (@upload_without_table_changes_nothing toy_readers file "shop" "people" app
           [Error "Unsupported file type. Please upload a CSV or Excel file."]).
  reflexivity.
Defined.

(** "Upload and Save Data" with a file that parses to a table without rows
    (a CSV that has only its header line): [save_data] has emptied the
    collection when the insert raises, nothing catches the exception, and
    the session keeps the table it had. *)
Theorem upload_of_empty_table_empties_collection `{TableReaders} (file : UploadedFile)
    (db_name collection_name : string) (app : app_state) (data : DataFrame)
    (shown : list feedback) :
  truthy db_name = true -> truthy collection_name = true ->
  process_uploaded_file (Some file) = (Some data, shown) ->
  wf data -> nrows data = 0%nat ->
  upload_and_save_button (Some file) db_name collection_name app
  = (mkApp (delete_many (store app) db_name collection_name) (session_data app),
     [Uncaught (TypeError "documents must be a non-empty list")])
  /\ find (delete_many (store app) db_name collection_name) db_name collection_name = [].
Proof.
  intros Hdb Hcoll Hp Hwf H0. split; [|apply find_delete_many].
  unfold upload_and_save_button. rewrite Hdb, Hcoll, Hp. simpl andb. cbv iota.
  rewrite (process_uploaded_file_table file data shown Hp).
  unfold save_data. by rewrite (to_dict_records_no_rows data Hwf H0).
Qed.

Lemma upload_of_empty_table_empties_collection_witness :
  let file := mkUpload "people.csv" "name,age" in
  let app := mkApp (client_of docs_people) (Some table_people) in
  find (store app) "shop" "people" = docs_people
  /\ find (store (fst (@upload_and_save_button toy_readers (Some file) "shop" "people" app)))
       "shop" "people" = []
  /\ session_data (fst (@upload_and_save_button toy_readers (Some file) "shop" "people" app))
     = Some table_people.
Proof.
  intros file app. split; [reflexivity|].
  destruct (@upload_of_empty_table_empties_collection toy_readers file "shop" "people" app
              empty_table []) as [Hrun Hfind].
  - reflexivity.
  - reflexivity.
  - reflexivity.
  - repeat constructor.
  - reflexivity.
  - rewrite Hrun. split; [exact Hfind | reflexivity].
Defined.

(** ** The text [json.dumps] writes *)

Lemma printable_ascii_append (a b : string) :
  printable_ascii (a +:+ b) = printable_ascii a && printable_ascii b.
Proof.
  induction a as [|c a IH]; [done|]. rewrite append_String. unfold printable_ascii in *.
  simpl. by rewrite IH, andb_assoc.
Qed.

Lemma printable_ascii_digits (s : string) :
  all_digits s = true -> printable_ascii s = true.
Proof.
  unfold all_digits, printable_ascii.
  induction s as [|c s IH]; [done|]. simpl. intros H.
  apply andb_true_iff in H as [Hc Hs]. rewrite (IH Hs), andb_true_r.
  destruct c as [[] [] [] [] [] [] [] []]; try discriminate Hc; done.
Qed.

Lemma printable_ascii_str_Z (z : Z) : printable_ascii (str_Z z) = true.
Proof.
  destruct z; simpl; try (apply printable_ascii_digits, all_digits_string_of_uint).
  unfold printable_ascii. simpl.
  apply (printable_ascii_digits (str_N (N.pos p))), all_digits_string_of_uint.
Qed.

Lemma printable_ascii_escape_char (c : ascii) : printable_ascii (escape_char c) = true.
Proof. destruct c as [[] [] [] [] [] [] [] []]; vm_compute; reflexivity. Qed.

Lemma printable_ascii_escape_chars (s : string) : printable_ascii (escape_chars s) = true.
Proof.
  induction s as [|c s IH]; [done|]. simpl.
  by rewrite printable_ascii_append, printable_ascii_escape_char, IH.
Qed.

Lemma printable_ascii_encode (s : string) :
  printable_ascii (encode_basestring_ascii s) = true.
Proof.
  unfold encode_basestring_ascii.
  change (String dquote (escape_chars s +:+ str1 dquote))
    with (str1 dquote +:+ (escape_chars s +:+ str1 dquote)).
  by rewrite !printable_ascii_append, printable_ascii_escape_chars.
Qed.

Lemma printable_ascii_join (sep : string) (parts : list string) :
  printable_ascii sep = true -> Forall (fun p => printable_ascii p = true) parts ->
  printable_ascii (join sep parts) = true.
Proof.
  intros Hsep. induction 1 as [|p rest Hp Hrest IH]; [done|].
  destruct rest as [|q rest]; [exact Hp|].
  rewrite join_cons, !printable_ascii_append, Hp, Hsep. exact IH.
Qed.

Lemma dumps_printable_ascii (v : value) : printable_ascii (dumps v) = true.
Proof.
  induction v as [a|items IH|fields IH] using value_ind'.
  - destruct a as [| |[]|z|s|d|h]; simpl; try done.
    + apply printable_ascii_str_Z.
    + apply printable_ascii_encode.
    + apply printable_ascii_encode.
    + apply printable_ascii_encode.
  - simpl. rewrite !printable_ascii_append.
    rewrite printable_ascii_join; [done|done|].
    change (map dumps items) with (dumps <$> items). by apply Forall_fmap.
  - simpl. rewrite !printable_ascii_append.
    rewrite printable_ascii_join; [done|done|].
    change (map ?f fields) with (f <$> fields). apply Forall_fmap.
    eapply Forall_impl; [exact IH|]. intros kv Hkv. simpl.
    by rewrite !printable_ascii_append, printable_ascii_encode, Hkv.
Qed.

Lemma printable_ascii_zfill (w : nat) (n : N) : printable_ascii (zfill w n) = true.
Proof.
  unfold zfill. rewrite printable_ascii_append.
  rewrite (printable_ascii_digits (replicate_char _ "0")) by apply all_digits_zeros.
  apply printable_ascii_digits, all_digits_string_of_uint.
Qed.

Lemma printable_ascii_isoformat (d : datetime) : printable_ascii (isoformat d) = true.
Proof.
  unfold isoformat, isoformat_sep.
  rewrite !printable_ascii_append, !printable_ascii_zfill.
  destruct (microsecond d =? 0)%N; [done|].
  by rewrite printable_ascii_append, printable_ascii_zfill.
Qed.

(** The text [serialize_complex_data] makes of a list, a dict or a
    datetime has only printable ASCII characters: [json.dumps] writes every
    other character of a text, a key or the [str] of a nested object as an
    escape (ensure_ascii), and [isoformat] writes digits and separators. *)
Theorem serialized_text_printable_ascii (v : value) (text : string) :
  serialize_complex_data v = VStr text -> v <> VStr text ->
  printable_ascii text = true.
Proof.
  intros Hs Hv. destruct v as [a|items|fields].
  - destruct a; try (simpl in Hs; congruence).
    injection Hs as <-. apply printable_ascii_isoformat.
  - injection Hs as <-. apply (dumps_printable_ascii (VList items)).
  - injection Hs as <-. apply (dumps_printable_ascii (VDict fields)).
Qed.

Lemma serialized_text_printable_ascii_witness :
  let v := VDict [("caf" +:+ str1 (chr 233), VList [VStr (str1 (chr 10)); NaN])] in
  let text := "{" +:+ str1 dquote +:+ "caf" +:+ str1 backslash +:+ "u00e9" +:+ str1 dquote
              +:+ ": [" +:+ str1 dquote +:+ str1 backslash +:+ "n" +:+ str1 dquote
              +:+ ", NaN]}" in
  serialize_complex_data v = VStr text /\ printable_ascii text = true.
Proof.
  intros v text. split; [reflexivity|].
  apply (serialized_text_printable_ascii v text); [reflexivity | discriminate].
Defined.

(** Two lists or dicts are serialized to the same text only if
    [json.loads] reads the same structure from both: the text loses what
    [default=str] flattens (a datetime and the text of its [str] are
    written alike) and nothing else. *)
Theorem serialized_same_text_same_structure (v w : value) :
  is_composite v = true -> is_composite w = true ->
  serialize_complex_data v = serialize_complex_data w ->
  json_of_value v = json_of_value w.
Proof.
  intros Hv Hw H.
  assert (E : dumps v = dumps w).
  { destruct v as [a| |]; [done| |]; (destruct w as [b| |]; [done| |]);
      exact (f_equal (fun x => match x with Atom (SStr t) => t | _ => "" end) H). }
  pose proof (loads_dumps v) as Hl. rewrite E, loads_dumps in Hl. congruence.
Qed.

Lemma serialized_same_text_same_structure_witness :
  let d := mkDatetime 2024 3 1 12 0 0 0 in
  let v := VList [Atom (SDatetime d)] in
  let w := VList [VStr "2024-03-01 12:00:00"] in
  v <> w /\ serialize_complex_data v = serialize_complex_data w
  /\ json_of_value v = json_of_value w.
Proof.
  intros d v w. split; [discriminate|]. split; [reflexivity|].
  apply (serialized_same_text_same_structure v w); reflexivity.
Defined.

(** ** [serialize_dataframe] *)

Lemma flat_cell_serialize (v : value) : flat_cell (serialize_complex_data v) = true.
Proof. destruct v as [[]| |]; done. Qed.

Lemma inferred_cells (P : value -> Prop) (convert_non_numeric : bool) (cells : list value) :
  P NaN -> Forall P cells ->
  Forall P (column_cells (maybe_convert_objects convert_non_numeric cells)).
Proof.
  intros HNaN Hcells. unfold maybe_convert_objects.
  repeat match goal with
         | |- context [if ?b then _ else _] => destruct b
         end; cbn [column_cells]; try exact Hcells.
  change (map ?f cells) with (f <$> cells). apply Forall_fmap, Forall_forall. by intros.
Qed.

(** No cell of a serialized table is a list, a dict or a datetime, and no
    column of it is datetime64, whatever the table held: the SQL engine
    never receives one. *)
Theorem serialize_dataframe_flat (df : DataFrame) :
  Forall (fun col => Forall (fun cell => flat_cell cell = true) (column_cells (snd col))
                     /\ forall cells, snd col <> Datetime64 cells)
         (columns (serialize_dataframe df)).
Proof.
  unfold serialize_dataframe, applymap. cbn [columns].
  change (map ?f (cols df)) with (f <$> cols df). apply Forall_fmap, Forall_forall.
  intros col _. cbn [snd]. split.
  - apply inferred_cells; [done|].
    change (map ?f (snd col)) with (f <$> snd col).
    apply Forall_fmap, Forall_forall. intros cell _. apply flat_cell_serialize.
  - intros cells. unfold maybe_convert_objects. cbn [andb].
    repeat match goal with
           | |- context [if ?b then _ else _] => destruct b
           end; discriminate.
Qed.

(** ** Transforms one after the other *)

Lemma set_col_fresh (c : string) (s : list value) (cs : list (string * list value)) :
  c ∉ map fst cs -> set_col c s cs = cs ++ [(c, s)].
Proof. intros H. unfold set_col. apply has_label_false in H. by rewrite H. Qed.

Lemma set_col_present (c : string) (s : list value) (cs : list (string * list value)) :
  c ∈ map fst cs ->
  set_col c s cs = map (fun col => if String.eqb (fst col) c then (fst col, s) else col) cs.
Proof. intros H. unfold set_col. apply has_label_elem in H. by rewrite H. Qed.

Lemma map_other_labels (c : string) (s : list value) (cs : list (string * list value)) :
  c ∉ map fst cs ->
  map (fun col => if String.eqb (fst col) c then (fst col, s) else col) cs = cs.
Proof.
  intros H. etrans; [|apply map_id]. apply map_ext_in. intros col Hin.
  destruct (String.eqb (fst col) c) eqn:E; [|done].
  apply String.eqb_eq in E. exfalso. apply H. rewrite <- E.
  apply list_elem_of_In in Hin.
  change (map fst cs) with (fst <$> cs). apply list_elem_of_fmap. by exists col.
Qed.

Lemma set_col_twice (c : string) (s1 s2 : list value) (cs : list (string * list value)) :
  set_col c s2 (set_col c s1 cs) = set_col c s2 cs.
Proof.
  rewrite (set_col_present c s2 (set_col c s1 cs)) by apply set_col_label.
  destruct (decide (c ∈ map fst cs)) as [Hin|Hout].
  - rewrite !set_col_present by done. rewrite map_map. apply map_ext. intros col.
    destruct (String.eqb (fst col) c) eqn:E; simpl; by rewrite E.
  - rewrite !set_col_fresh by done. rewrite map_app. simpl.
    by rewrite String.eqb_refl, map_other_labels.
Qed.

(** Adding a column twice under one name is adding it once with the second
    default: the second call overwrites the first where it stands, whether
    the name was a column of the table before or not. *)
Theorem add_column_last_write_wins (name : string) (v1 v2 : scalar) (df : DataFrame) :
  exists df1,
    add_column name v1 df = (df1, Ok df1)
    /\ add_column name v2 df1 = add_column name v2 df.
Proof.
  eexists. split; [apply add_column_run|].
  rewrite !add_column_run. simpl. by rewrite set_col_twice.
Qed.

(** Removing a column that was just added under a name the table did not
    have gives back the table as it was before the addition. *)
Theorem add_then_remove_round_trip (name : string) (v : scalar) (df : DataFrame) :
  name ∉ labels df ->
  exists df1,
    add_column name v df = (df1, Ok df1)
    /\ remove_columns [name] df1 = (df1, Ok df).
Proof.
  intros Hout. eexists. split; [apply add_column_run|].
  unfold remove_columns, mbind, Py_bind, get_data, lift.
  rewrite drop_columns_present.
  - cbn [nrows cols]. rewrite set_col_fresh by done.
    rewrite filter_app.
    rewrite (filter_keeps_all (fun col => negb (has_label (fst col) [name]))).
    + rewrite filter_cons_False, filter_nil, app_nil_r, DataFrame_eta; [done|].
      simpl. rewrite String.eqb_refl. simpl. tauto.
    + intros col Hcol. apply negb_true_iff, has_label_false.
      intros Hin. apply list_elem_of_singleton in Hin. apply Hout. rewrite <- Hin.
      unfold labels. change (map fst (cols df)) with (fst <$> cols df).
      apply list_elem_of_fmap. by exists col.
  - constructor; [|constructor]. unfold labels. cbn [cols]. apply set_col_label.
Qed.

Lemma add_then_remove_round_trip_witness :
  exists df1,
    add_column "active" (SStr "yes") table_people = (df1, Ok df1)
    /\ labels df1 = ["name"; "age"; "active"]
    /\ remove_columns ["active"] df1 = (df1, Ok table_people).
Proof.
  destruct (add_then_remove_round_trip "active" (SStr "yes") table_people)
    as (df1 & Hadd & Hremove).
  - simpl. label_out.
  - exists df1. split; [exact Hadd|]. split; [|exact Hremove].
    vm_compute in Hadd. injection Hadd as <-. reflexivity.
Defined.

Lemma where_set_again (cond new : scalar) (s t : list value) :
  where_set (series_eq (where_set (series_eq s cond) new s) cond) new
            (where_set (series_eq s cond) new t)
  = where_set (series_eq s cond) new t.
Proof.
  revert t. induction s as [|x s IH]; intros t; [done|].
  destruct t as [|y t]; [done|].
  simpl. rewrite IH. f_equal.
  destruct (elem_eq x cond) eqn:E.
  - by destruct (elem_eq (Atom new) cond).
  - by rewrite E.
Qed.

(** A conditional update applied a second time changes nothing: the cells
    that matched hold the new value, and no other cell has come to match. *)
Theorem conditional_update_idempotent (column : string) (condition new_value : scalar)
    (df : DataFrame) :
  unique_labels df -> column ∈ labels df ->
  exists df1,
    conditional_update column condition new_value df = (df1, Ok df1)
    /\ conditional_update column condition new_value df1 = (df1, Ok df1).
Proof.
  intros _ Hin. apply find_col_is_Some in Hin as [s Hs].
  eexists. split; [by apply conditional_update_run|].
  set (W := where_set (series_eq s condition) new_value).
  pose proof (find_col_map_eq column W (cols df)) as Hfind. rewrite Hs in Hfind.
  etrans; [apply (conditional_update_run column condition new_value _ (W s)); exact Hfind|].
  cbn [nrows cols]. rewrite map_map.
  assert (E : map (fun col =>
                     if String.eqb (fst (if String.eqb (fst col) column
                                         then (fst col, W (snd col)) else col)) column
                     then (fst (if String.eqb (fst col) column
                                then (fst col, W (snd col)) else col),
                           where_set (series_eq (W s) condition) new_value
                             (snd (if String.eqb (fst col) column
                                   then (fst col, W (snd col)) else col)))
                     else if String.eqb (fst col) column
                          then (fst col, W (snd col)) else col) (cols df)
              = map (fun col => if String.eqb (fst col) column
                                then (fst col, W (snd col)) else col) (cols df)).
  { apply map_ext. intros col.
    destruct (String.eqb (fst col) column) eqn:E; cbn [fst snd]; rewrite E; [|done].
    unfold W. by rewrite where_set_again. }
  by rewrite E.
Qed.

Lemma conditional_update_idempotent_witness :
  exists df1,
    conditional_update "name" (SStr "Bo") (SStr "Bob") table_people = (df1, Ok df1)
    /\ find_col "name" (cols df1) = Some [VStr "Ann"; VStr "Bob"]
    /\ conditional_update "name" (SStr "Bo") (SStr "Bob") df1 = (df1, Ok df1).
Proof.
  destruct (conditional_update_idempotent "name" (SStr "Bo") (SStr "Bob") table_people)
    as (df1 & Hfirst & Hsecond).
  - unfold unique_labels. simpl. labels_nodup.
  - simpl. label_in.
  - exists df1. split; [exact Hfirst|]. split; [|exact Hsecond].
    vm_compute in Hfirst. injection Hfirst as <-. reflexivity.
Defined.

(** ** One cell per row *)

Lemma wf_set_col (n : nat) (c : string) (s : list value) (cs : list (string * list value)) :
  Forall (fun col => length (snd col) = n) cs -> length s = n ->
  Forall (fun col => length (snd col) = n) (set_col c s cs).
Proof.
  intros Hcs Hs. unfold set_col. destruct (has_label c (map fst cs)).
  - change (map ?f cs) with (f <$> cs). apply Forall_fmap.
    eapply Forall_impl; [exact Hcs|]. intros col Hcol. simpl.
    by destruct (String.eqb (fst col) c).
  - apply Forall_app. split; [done|]. by constructor.
Qed.

Lemma length_series_add (a b : list string) :
  length a = length b -> length (series_add a b) = length a.
Proof.
  revert b. induction a as [|x a IH]; intros [|y b]; simpl; try done.
  intros [= H]. by rewrite IH.
Qed.

Lemma length_merged (a b : list value) :
  length a = length b -> length (merged a b) = length a.
Proof.
  intros H. unfold merged, astype_str.
  rewrite length_map, length_series_add; rewrite !length_map; done.
Qed.

Lemma length_where_set (mask : list bool) (a : scalar) (s : list value) :
  length (where_set mask a s) = length s.
Proof.
  revert s. induction mask as [|m mask IH]; intros [|v s]; simpl; try done.
  by rewrite IH.
Qed.

Lemma wf_drop_columns (names : list string) (df df' : DataFrame) :
  wf df -> drop_columns names df = Ok df' -> wf df' /\ nrows df' = nrows df.
Proof.
  intros Hwf. unfold drop_columns.
  destruct (filter _ names); [|discriminate].
  intros [= <-]. split; [|done]. unfold wf in *. simpl.
  rewrite Forall_forall in Hwf. apply Forall_forall. intros col Hcol.
  apply list_elem_of_filter in Hcol as [_ Hcol]. by apply Hwf.
Qed.

Lemma find_col_length (c : string) (df : DataFrame) (s : list value) :
  wf df -> find_col c (cols df) = Some s -> length s = nrows df.
Proof.
  intros Hwf Hs. apply find_col_Some in Hs.
  unfold wf in Hwf. rewrite Forall_forall in Hwf. apply (Hwf _ Hs).
Qed.

(** The column transforms keep the shape of the table: when every column
    has one cell per row, so has every column of the table a transform
    returns and of the table it leaves in place, and the number of rows is
    the same; no transform adds or removes a row. *)
Theorem transforms_keep_shape (t : transform) (df object df' : DataFrame) :
  wf df -> unique_labels df ->
  apply_transform t df = (object, Ok df') ->
  wf object /\ nrows object = nrows df /\ wf df' /\ nrows df' = nrows df.
Proof.
  intros Hwf _ Hrun. destruct t as [name v|a b new drop|names|old new|c m n]; simpl in Hrun.
  - rewrite add_column_run in Hrun. injection Hrun as <- <-.
    assert (wf (mkDF (nrows df) (set_col name (repeat (Atom v) (nrows df)) (cols df)))).
    { apply wf_set_col; [exact Hwf | apply repeat_length]. }
    done.
  - destruct (find_col a (cols df)) as [sa|] eqn:Ea; cycle 1.
    { unfold merge_columns, mbind, Py_bind, getitem in Hrun. by rewrite Ea in Hrun. }
    destruct (find_col b (cols df)) as [sb|] eqn:Eb; cycle 1.
    { unfold merge_columns, mbind, Py_bind, getitem in Hrun. by rewrite Ea, Eb in Hrun. }
    rewrite (merge_columns_run a b new drop df sa sb Ea Eb) in Hrun. cbv zeta in Hrun.
    pose proof (find_col_length a df sa Hwf Ea) as La.
    pose proof (find_col_length b df sb Hwf Eb) as Lb.
    assert (Hwf1 : wf (mkDF (nrows df) (set_col new (merged sa sb) (cols df)))).
    { apply wf_set_col; [exact Hwf|]. cbn [nrows].
      rewrite length_merged; [exact La | congruence]. }
    injection Hrun as <- Hres.
    split; [done|]. split; [done|].
    destruct drop.
    + apply (wf_drop_columns _ _ _ Hwf1 Hres).
    + by injection Hres as <-.
  - unfold remove_columns, mbind, Py_bind, get_data, lift in Hrun.
    injection Hrun as <- Hres.
    split; [done|]. split; [done|]. apply (wf_drop_columns _ _ _ Hwf Hres).
  - rewrite rename_column_run in Hrun. injection Hrun as <- <-.
    split; [done|]. split; [done|]. split; [|done].
    unfold wf, rename_columns. simpl.
    change (map ?f (cols df)) with (f <$> cols df). apply Forall_fmap.
    eapply Forall_impl; [exact Hwf|]. intros col Hcol. simpl.
    by destruct (String.eqb (fst col) old).
  - destruct (find_col c (cols df)) as [s|] eqn:Ec; cycle 1.
    { unfold conditional_update, mbind, Py_bind, getitem in Hrun. by rewrite Ec in Hrun. }
    rewrite (conditional_update_run c m n df s Ec) in Hrun. cbv zeta in Hrun.
    injection Hrun as <- <-.
    assert (wf (mkDF (nrows df)
                  (map (fun col => if String.eqb (fst col) c
                                   then (fst col, where_set (series_eq s m) n (snd col))
                                   else col) (cols df)))).
    { unfold wf. simpl. change (map ?f (cols df)) with (f <$> cols df). apply Forall_fmap.
      eapply Forall_impl; [exact Hwf|]. intros col Hcol. simpl.
      destruct (String.eqb (fst col) c); [|done]. simpl. by rewrite length_where_set. }
    done.
Qed.

Lemma transforms_keep_shape_witness :
  let object := mkDF 2 [("a", [VStr "x"; Atom (SInt 1)]); ("b", [VStr "y"; NaN]);
                        ("c", [VStr "xy"; VStr "1nan"])] in
  let df' := mkDF 2 [("c", [VStr "xy"; VStr "1nan"])] in
  apply_transform (MergeColumns "a" "b" "c" true) table_ab = (object, Ok df')
  /\ wf object /\ nrows object = 2%nat /\ wf df' /\ nrows df' = 2%nat.
Proof.
  intros object df'.
  assert (Hrun : apply_transform (MergeColumns "a" "b" "c" true) table_ab = (object, Ok df'))
    by reflexivity.
  split; [exact Hrun|].
  apply (transforms_keep_shape (MergeColumns "a" "b" "c" true) table_ab object df').
  - repeat constructor.
  - unfold unique_labels. simpl. labels_nodup.
  - exact Hrun.
Defined.

(** ** Loading, then saving *)

Lemma assign_ids_lookup (n : N) (docs : list document) (i : nat) (d : document) :
  Forall (fun d => "_id" ∉ map fst d) docs -> docs !! i = Some d ->
  fst (assign_ids n docs) !! i
  = Some (("_id", Atom (SObjectId (zfill 24 (n + N.of_nat i)))) :: d).
Proof.
  revert n i. induction docs as [|d0 rest IH]; intros n i Hall Hd; [done|].
  apply Forall_cons in Hall as [Hd0 Hrest].
  simpl. apply has_label_false in Hd0. rewrite Hd0.
  specialize (IH (n + 1)%N). destruct (assign_ids (n + 1) rest) as [ds n'].
  destruct i as [|i].
  - injection Hd as <-. simpl. by rewrite N.add_0_r.
  - replace (n + N.of_nat (S i))%N with (n + 1 + N.of_nat i)%N by lia.
    apply (IH i Hrest Hd).
Qed.

(** Loading a collection and saving the table as loaded does not leave the
    collection as it was, even when every column has kept its cells: every
    document is stored again under an [_id] the store assigns anew, its own
    one dropped, and with every field of the union of the field names in
    first-seen order, NaN where the document had none. *)
Theorem load_then_save_rewrites_documents (client : MongoClient)
    (db_name collection_name : string) :
  let docs := find client db_name collection_name in
  let keys := filter (fun k => not_id k) (first_occurrences (key_stream docs)) in
  plain_name db_name = true -> plain_name collection_name = true ->
  docs <> [] -> keys <> [] ->
  Forall (fun k => round_trips (k, column_of docs k)) keys ->
  exists frame table client',
    load_data client db_name collection_name = Ok frame
    /\ as_table frame = Some table
    /\ save_data client db_name collection_name table = (client', Ok tt)
    /\ length (find client' db_name collection_name) = length docs
    /\ forall i d, docs !! i = Some d ->
         find client' db_name collection_name !! i
         = Some (("_id", Atom (SObjectId (zfill 24 (next_oid client + N.of_nat i))))
                 :: map (fun k => (k, default NaN (dict_get k d))) keys).
Proof.
  intros docs keys _ _ Hdocs Hkeys Hrt.
  eexists. exists (mkDF (length docs) (map (fun k => (k, column_of docs k)) keys)).
  assert (Hnd : NoDup keys) by apply NoDup_filter, NoDup_first_occurrences.
  assert (Hrec : to_dict_records (mkDF (length docs) (map (fun k => (k, column_of docs k)) keys))
                 = map (fun d => map (fun k => (k, default NaN (dict_get k d))) keys) docs).
  { unfold to_dict_records, labels. cbn [cols]. rewrite labels_columns, map_map. simpl.
    unfold column_of.
    rewrite (zip_star_columns (fun k d => default NaN (dict_get k d)) docs keys Hkeys).
    rewrite map_map. apply map_ext. intros d.
    apply (dict_of_row (fun k => default NaN (dict_get k d)) keys Hnd). }
  assert (Hsave : exists client',
             save_data client db_name collection_name
               (mkDF (length docs) (map (fun k => (k, column_of docs k)) keys)) = (client', Ok tt)).
  { unfold save_data, insert_many. rewrite Hrec.
    destruct docs as [|d0 rest]; [done|]. simpl map.
    destruct (assign_ids _ _). by eexists. }
  destruct Hsave as [client' Hsave]. exists client'.
  split; [apply load_data_run|]. split.
  { unfold as_table. cbn [index columns]. fold docs. fold keys.
    rewrite (kept_columns_map _ (column_of docs) keys); [done|].
    eapply Forall_impl; [exact Hrt|]. intros k (_ & _ & Hk). exact Hk. }
  split; [exact Hsave|].
  pose proof (save_data_collection client db_name collection_name
                (mkDF (length docs) (map (fun k => (k, column_of docs k)) keys))) as Hfind.
  rewrite Hsave, Hrec in Hfind. simpl in Hfind. rewrite Hfind.
  split; [by rewrite assign_ids_length, length_map|].
  intros i d Hd. apply assign_ids_lookup.
  - apply Forall_forall. intros r Hr.
    change (map ?f docs) with (f <$> docs) in Hr. apply list_elem_of_fmap in Hr as (d' & -> & _).
    rewrite labels_columns'. intros Hin. unfold keys in Hin.
    apply list_elem_of_filter in Hin as [Hin _]. done.
  - change (map ?f docs) with (f <$> docs). by rewrite list_lookup_fmap, Hd.
Qed.

Lemma load_then_save_rewrites_documents_witness :
  exists frame table client',
    load_data (client_of docs_notes) "shop" "people" = Ok frame
    /\ as_table frame = Some table
    /\ save_data (client_of docs_notes) "shop" "people" table = (client', Ok tt)
    /\ find client' "shop" "people" !! 1%nat
       = Some [("_id", Atom (SObjectId "000000000000000000000008"));
               ("title", VStr "list"); ("tags", NaN); ("done", Atom (SBool true))].
Proof.
  destruct (load_then_save_rewrites_documents (client_of docs_notes) "shop" "people")
    as (frame & table & client' & Hload & Htable & Hsave & _ & Hdocs).
  - reflexivity.
  - reflexivity.
  - discriminate.
  - discriminate.
  - repeat constructor.
  - exists frame, table, client'. split; [exact Hload|]. split; [exact Htable|].
    split; [exact Hsave|].
    apply (Hdocs 1%nat [("_id", Atom (SObjectId "65f000000000000000000005"));
                        ("done", Atom (SBool true)); ("title", VStr "list")]).
    reflexivity.
Defined.

(** ** Columns that share a label *)

Lemma keys_dict_set (k : string) (v : value) (d : document) :
  map fst (dict_set k v d) = see (map fst d) k.
Proof.
  unfold see. induction d as [|[k' v'] d IH]; [done|].
  cbn [dict_set map fst has_label existsb].
  destruct (String.eqb_spec k' k) as [->|Hne].
  - rewrite String.eqb_refl. reflexivity.
  - assert (E : String.eqb k k' = false) by (apply String.eqb_neq; congruence).
    rewrite E. cbn [map fst orb]. rewrite IH. unfold has_label.
    destruct (existsb (String.eqb k) (map fst d)); reflexivity.
Qed.

Lemma keys_dict_fold (pairs : list (string * value)) (acc : document) :
  map fst (fold_left (fun d kv => dict_set (fst kv) (snd kv) d) pairs acc)
  = fold_left see (map fst pairs) (map fst acc).
Proof.
  revert acc. induction pairs as [|p pairs IH]; intros acc; [done|].
  simpl. by rewrite IH, keys_dict_set.
Qed.

(** The keys of [dict(pairs)] stand in the order they first occur. *)
Lemma keys_dict_of (pairs : list (string * value)) :
  map fst (dict_of pairs) = first_occurrences (map fst pairs).
Proof. unfold dict_of. by rewrite keys_dict_fold, first_occurrences_fold. Qed.

Lemma dict_get_dict_set (k k' : string) (v : value) (d : document) :
  dict_get k (dict_set k' v d) = if String.eqb k' k then Some v else dict_get k d.
Proof.
  induction d as [|[k0 v0] d IH]; [done|].
  simpl. destruct (String.eqb k0 k') eqn:E0.
  - apply String.eqb_eq in E0 as ->. simpl. by destruct (String.eqb k' k).
  - simpl. rewrite IH. destruct (String.eqb k0 k) eqn:E1; [|done].
    apply String.eqb_eq in E1 as ->. rewrite String.eqb_sym in E0. by rewrite E0.
Qed.

Lemma dict_get_snoc (k : string) (d : document) (p : string * value) :
  dict_get k (d ++ [p])
  = match dict_get k d with
    | Some v => Some v
    | None => if String.eqb (fst p) k then Some (snd p) else None
    end.
Proof.
  induction d as [|[k0 v0] d IH]; [by destruct p|].
  simpl. by destruct (String.eqb k0 k).
Qed.

Lemma dict_get_dict_fold (k : string) (pairs : list (string * value)) (acc : document) :
  dict_get k (fold_left (fun d kv => dict_set (fst kv) (snd kv) d) pairs acc)
  = match dict_get k (rev pairs) with
    | Some v => Some v
    | None => dict_get k acc
    end.
Proof.
  revert acc. induction pairs as [|p pairs IH]; intros acc; [done|].
  simpl. rewrite IH, dict_get_snoc, dict_get_dict_set.
  destruct (dict_get k (rev pairs)); [done|].
  by destruct (String.eqb (fst p) k).
Qed.

(** In [dict(pairs)] the last pair of a key gives its value. *)
Lemma dict_get_dict_of (k : string) (pairs : list (string * value)) :
  dict_get k (dict_of pairs) = dict_get k (rev pairs).
Proof.
  unfold dict_of. rewrite dict_get_dict_fold. by destruct (dict_get k (rev pairs)).
Qed.

Lemma dict_get_cells (k : string) (g : list value -> value) (cs : list (string * list value)) :
  dict_get k (map (fun col => (fst col, g (snd col))) cs) = g <$> find_col k cs.
Proof.
  induction cs as [|[l s] cs IH]; [done|].
  simpl. by destruct (String.eqb l k).
Qed.

(** When columns share a label, as after a rename onto the name of another
    column, [save_data] stores one field for that label: the documents have
    the labels once each, in the order of their first occurrence, and under
    each label the cell of the last column that bears it, so the cells of
    the columns before it are not saved. *)
Theorem save_data_duplicate_labels (client : MongoClient) (db_name collection_name : string)
    (df : DataFrame) (i : nat) (stored : document) :
  wf df -> "_id" ∉ labels df ->
  find (fst (save_data client db_name collection_name df)) db_name collection_name !! i
    = Some stored ->
  map fst stored = "_id" :: first_occurrences (labels df)
  /\ forall k, k <> "_id" ->
       dict_get k stored
       = (fun column => default NaN (column !! i)) <$> find_col k (rev (cols df)).
Proof.
  intros Hwf Hid Hst. rewrite save_data_collection in Hst.
  assert (Hne : cols df <> []).
  { intros E. unfold to_dict_records in Hst. by rewrite E in Hst. }
  assert (Hrec : to_dict_records df
                 = map (fun i => dict_of (map (fun col => (fst col, default NaN (snd col !! i)))
                                              (cols df)))
                       (seq 0 (nrows df))).
  { unfold to_dict_records.
    rewrite (zip_star_rows (map snd (cols df)) (nrows df)).
    - rewrite map_map. apply map_ext. intros j. rewrite map_map. unfold labels.
      by rewrite (zip_labels (fun x => default NaN (snd x !! j))).
    - by destruct (cols df).
    - change (map snd (cols df)) with (snd <$> cols df). apply Forall_fmap. exact Hwf. }
  assert (Hkeys : forall j,
            map fst (dict_of (map (fun col => (fst col, default NaN (snd col !! j))) (cols df)))
            = first_occurrences (labels df)).
  { intros j. rewrite keys_dict_of, map_map. reflexivity. }
  assert (Hnoid : Forall (fun d => "_id" ∉ map fst d) (to_dict_records df)).
  { rewrite Hrec. apply Forall_forall. intros d Hd.
    change (map ?f ?l) with (f <$> l) in Hd. apply list_elem_of_fmap in Hd as (j & -> & _).
    rewrite Hkeys. intros Hin. by apply (proj1 (elem_of_first_occurrences _ _)) in Hin. }
  pose proof (assign_ids_fresh (next_oid client) _ Hnoid) as H2.
  destruct (Forall2_lookup_l _ _ _ _ _ H2 Hst) as (d & Hd & oid & ->).
  rewrite Hrec in Hd. change (map ?f ?l) with (f <$> l) in Hd.
  rewrite list_lookup_fmap in Hd.
  destruct (seq 0 (nrows df) !! i) as [j|] eqn:Ej; [|done].
  apply lookup_seq in Ej as [-> _]. simpl in Hd. injection Hd as <-.
  split; [simpl; by rewrite Hkeys|].
  intros k Hk. rewrite dict_get_skip by done.
  rewrite dict_get_dict_of, <- map_rev.
  apply (dict_get_cells k (fun column => default NaN (column !! i))).
Qed.

Lemma save_data_duplicate_labels_witness :
  let df := mkDF 1 [("b", [VStr "first"]); ("c", [VStr "other"]); ("b", [VStr "last"])] in
  let stored := [("_id", Atom (SObjectId "000000000000000000000007"));
                 ("b", VStr "last"); ("c", VStr "other")] in
  find (fst (save_data (client_of docs_people) "shop" "people" df)) "shop" "people" = [stored]
  /\ map fst stored = ["_id"; "b"; "c"]
  /\ dict_get "b" stored = Some (VStr "last").
Proof.
  intros df stored. split; [reflexivity|].
  destruct (save_data_duplicate_labels (client_of docs_people) "shop" "people" df 0 stored)
    as [Hkeys Hget].
  - repeat constructor.
  - simpl. label_out.
  - reflexivity.
  - split; [exact Hkeys|]. apply (Hget "b"). discriminate.
Defined.

Lemma to_dict_records_keys (df : DataFrame) :
  wf df -> cols df <> [] ->
  Forall (fun d => map fst d = first_occurrences (labels df)) (to_dict_records df).
Proof.
  intros Hwf Hne. unfold to_dict_records.
  rewrite (zip_star_rows (map snd (cols df)) (nrows df)).
  - rewrite map_map. apply Forall_forall. intros d Hd.
    change (map ?f ?l) with (f <$> l) in Hd. apply list_elem_of_fmap in Hd as (i & -> & _).
    rewrite keys_dict_of. f_equal. rewrite map_map. unfold labels.
    rewrite (zip_labels (fun x => default NaN (snd x !! i))). by rewrite map_map.
  - by destruct (cols df).
  - change (map snd (cols df)) with (snd <$> cols df). apply Forall_fmap. exact Hwf.
Qed.

(** [save_data] of a table with at least one column and one row, no [_id]
    column, field names the store takes and cells BSON holds, under a
    database and a collection name the store takes, succeeds and
    replaces the collection: afterwards it holds one document per row, each
    the record of its row with a fresh [_id] in front, so nothing of what
    it held before; every other collection is as it was, and the sidebar
    reports success. *)
Theorem save_data_replaces_collection (client : MongoClient) (db_name collection_name : string)
    (df : DataFrame) :
  plain_name db_name = true -> plain_name collection_name = true ->
  wf df -> cols df <> [] -> (0 < nrows df)%nat ->
  "_id" ∉ labels df ->
  Forall (fun col => plain_key (fst col) = true /\ forallb bson_exact (snd col) = true)
         (cols df) ->
  exists client',
    save_data client db_name collection_name df = (client', Ok tt)
    /\ length (find client' db_name collection_name) = nrows df
    /\ Forall2 (fun s d => exists oid, s = ("_id", Atom (SObjectId oid)) :: d)
               (find client' db_name collection_name) (to_dict_records df)
    /\ Forall (fun s => "_id" ∈ map fst s) (find client' db_name collection_name)
    /\ (forall db' collection', (db', collection') <> (db_name, collection_name) ->
          find client' db' collection' = find client db' collection')
    /\ save_data_button client db_name collection_name df
       = (client', Success "Data saved successfully!").
Proof.
  intros _ _ Hwf Hne Hrows Hid _.
  pose proof (save_data_collection client db_name collection_name df) as Hfind.
  pose proof (to_dict_records_length df Hwf Hne) as Hlen.
  assert (Hsave : exists client', save_data client db_name collection_name df = (client', Ok tt)).
  { unfold save_data, insert_many.
    destruct (to_dict_records df) as [|r rs]; [simpl in Hlen; lia|].
    destruct (assign_ids _ (r :: rs)). by eexists. }
  destruct Hsave as [client' Hsave]. exists client'.
  pose proof (fun db' collection' =>
                find_save_data_other client db_name collection_name db' collection' df)
    as Hother.
  unfold save_data_button. rewrite Hsave in *. simpl in Hfind.
  split; [done|]. rewrite Hfind.
  split; [by rewrite assign_ids_length|].
  split.
  { apply assign_ids_fresh.
    eapply Forall_impl; [apply (to_dict_records_keys df Hwf Hne)|].
    intros d -> Hin. by apply (proj1 (elem_of_first_occurrences _ _)) in Hin. }
  split; [apply assign_ids_has_id|].
  split; [|done].
  exact Hother.
Qed.

Lemma save_data_replaces_collection_witness :
  exists client',
    save_data (client_of docs_people) "shop" "people" table_people = (client', Ok tt)
    /\ find client' "shop" "people"
       = [ [("_id", Atom (SObjectId "000000000000000000000007"));
            ("name", VStr "Ann"); ("age", Atom (SInt 30))];
           [("_id", Atom (SObjectId "000000000000000000000008"));
            ("name", VStr "Bo"); ("age", Atom SNone)] ].
Proof.
  destruct (save_data_replaces_collection (client_of docs_people) "shop" "people" table_people)
    as (client' & Hsave & _).
  - reflexivity.
  - reflexivity.
  - repeat constructor.
  - discriminate.
  - simpl. lia.
  - simpl. label_out.
  - repeat constructor.
  - exists client'. split; [exact Hsave|].
    vm_compute in Hsave. injection Hsave as <-. reflexivity.
Defined.
